(** * AI-Nesting-Optimizer: a shallow embedding of the geometry helpers
      (geometry_utils.py) and of the genetic nesting optimizer
      (nesting_optimizer.py), with the properties of its specification.

    Numbers.  Python floats and ints are modelled by exact rationals [Q]
    (and, for the one statement about [np.pi] and the trigonometric
    functions, by the reals [R]); rounding is not modelled.  Comparisons
    are the boolean ones the code evaluates.

    Exceptions.  A Python call that can raise returns a [result]; the
    [try ... except Exception: continue] of the two acceptance loops is a
    [match] on it.

    Libraries.  shapely and numpy are not part of the repository: their
    operations are the fields of the classes [Shapely] and [Numpy].  The
    instance [PolyGeom] (vertex lists, shoelace area, clipping of convex
    polygons) runs the code on concrete inputs. *)

From Stdlib Require Import Reals Lra.
From Stdlib Require Import QArith Qabs Qminmax ZArith List String Ascii Bool Lia Lqa.
From Stdlib Require Import DecimalString.
Import ListNotations.

Local Open Scope Q_scope.

(* ================================================================== *)
(** * Python values, exceptions and the error monad *)

(** The exceptions the modelled code can raise.  [ValueError] carries its
    message, [KeyError] the missing key; [ShapelyError] stands for an
    exception raised inside the geometry library. *)
Inductive exn : Type :=
| ValueError (msg : string)
| KeyError (key : string)
| ZeroDivisionError
| ShapelyError.

Inductive result (A : Type) : Type :=
| Ok (a : A)
| Raise (e : exn).

Arguments Ok {A} a.
Arguments Raise {A} e.

Definition bind {A B : Type} (r : result A) (k : A -> result B) : result B :=
  match r with
  | Ok a => k a
  | Raise e => Raise e
  end.

Notation "x <- r ;; k" := (bind r (fun x => k))
  (at level 61, r at next level, right associativity).

(** [d[key]] on a dict that may lack the key. *)
Definition subscript {A : Type} (key : string) (field : option A) : result A :=
  match field with
  | Some v => Ok v
  | None => Raise (KeyError key)
  end.

(** Python's true division [a / b]. *)
Definition py_div (a b : Q) : result Q :=
  if Qeq_bool b 0 then Raise ZeroDivisionError else Ok (a / b).

(** [a > b] and [a >= b] on numbers. *)
Definition Qgt_bool (a b : Q) : bool := negb (Qle_bool a b).
Definition Qge_bool (a b : Q) : bool := Qle_bool b a.

(** [str.lower()] on the ASCII letters. *)
Definition lower_ascii (c : ascii) : ascii :=
  let n := nat_of_ascii c in
  if (65 <=? n)%nat && (n <=? 90)%nat then ascii_of_nat (n + 32) else c.

Fixpoint lower (s : string) : string :=
  match s with
  | EmptyString => EmptyString
  | String c s' => String (lower_ascii c) (lower s')
  end.

(** [str(n)] for an integer. *)
Definition str_of_Z (n : Z) : string := NilZero.string_of_int (Z.to_int n).

(* ================================================================== *)
(** * The part dictionary

    A part description is a dict with the keys [id], [type], [quantity]
    and the dimensions of its shape; every key may be absent.  The
    fields hold what the catalog format gives them: strings for [id] and
    [type], an integer for [quantity], numbers for the dimensions. *)

Record part_info : Type := mkPart {
  p_id : option string;
  p_type : option string;
  p_quantity : option Z;
  p_width : option Q;
  p_height : option Q;
  p_radius : option Q;
  p_base : option Q
}.

(** [part_copy['id'] = v] on a copy of the dict. *)
Definition set_id (p : part_info) (v : string) : part_info :=
  mkPart (Some v) (p_type p) (p_quantity p) (p_width p) (p_height p)
         (p_radius p) (p_base p).

(** [d['type'] = v] (used to state properties of the dispatch). *)
Definition set_type (p : part_info) (v : string) : part_info :=
  mkPart (p_id p) (Some v) (p_quantity p) (p_width p) (p_height p)
         (p_radius p) (p_base p).

(* ================================================================== *)
(** * The external libraries *)

Definition point : Type := (Q * Q)%type.

(** (minx, miny, maxx, maxy) *)
Definition bounds_t : Type := (Q * Q * Q * Q)%type.

(** The operations of shapely the repository calls.  Constructors,
    affine maps and the binary predicates may raise; [bounds] and [area]
    are attribute reads. *)
Class Shapely : Type := {
  Shape : Type;
  Box : Q -> Q -> Q -> Q -> result Shape;
  Polygon : list point -> result Shape;
  (** [rotate(shape, angle, use_radians=True, origin='center')] *)
  rotate : Shape -> Q -> result Shape;
  translate : Shape -> Q -> Q -> result Shape;
  bounds : Shape -> bounds_t;
  area : Shape -> Q;
  intersects : Shape -> Shape -> result bool;
  intersection : Shape -> Shape -> result Shape
}.

(** [np.pi], [np.cos], [np.sin] as the rational values numpy returns. *)
Class Numpy : Type := {
  np_pi : Q;
  np_cos : Q -> Q;
  np_sin : Q -> Q
}.

(** [np.linspace(start, stop, num, endpoint=False)]: [num] samples
    [start + k * step], [step = (stop - start) / num]. *)
Definition linspace_open (start stop : Q) (num : nat) : list Q :=
  let step := (stop - start) / inject_Z (Z.of_nat num) in
  map (fun k => start + inject_Z (Z.of_nat k) * step) (seq 0 num).

(* ================================================================== *)
(** * geometry_utils.py *)

Section GeometryUtils.
Context `{Shapely} `{Numpy}.

Definition unsupported (part_type : string) : exn :=
  ValueError ("Unsupported part type: " ++ part_type).

(** geometry_utils.py, lines 5-34. *)
Definition create_part_from_dict (part : part_info) : result Shape :=
  t <- subscript "type" (p_type part) ;;
  let part_type := lower t in
  if String.eqb part_type "rectangle" then
    width <- subscript "width" (p_width part) ;;
    height <- subscript "height" (p_height part) ;;
    Box (- width / 2) (- height / 2) (width / 2) (height / 2)
  else if String.eqb part_type "circle" then
    radius <- subscript "radius" (p_radius part) ;;
    let angles := linspace_open 0 (2 * np_pi) 32 in
    let points := map (fun a => (radius * np_cos a, radius * np_sin a)) angles in
    Polygon points
  else if String.eqb part_type "triangle" then
    base <- subscript "base" (p_base part) ;;
    height <- subscript "height" (p_height part) ;;
    let points := [ (- base / 2, - height / 3);
                    (base / 2, - height / 3);
                    (0, 2 * height / 3) ] in
    Polygon points
  else Raise (unsupported part_type).

(** geometry_utils.py, lines 36-53. *)
Definition get_part_bounds (part : part_info) : result (Q * Q) :=
  t <- subscript "type" (p_type part) ;;
  let part_type := lower t in
  if String.eqb part_type "rectangle" then
    width <- subscript "width" (p_width part) ;;
    height <- subscript "height" (p_height part) ;;
    Ok (width, height)
  else if String.eqb part_type "circle" then
    radius <- subscript "radius" (p_radius part) ;;
    Ok (2 * radius, 2 * radius)
  else if String.eqb part_type "triangle" then
    base <- subscript "base" (p_base part) ;;
    height <- subscript "height" (p_height part) ;;
    Ok (base, height)
  else Raise (unsupported part_type).

(** geometry_utils.py, lines 55-72. *)
Definition calculate_part_area (part : part_info) : result Q :=
  t <- subscript "type" (p_type part) ;;
  let part_type := lower t in
  if String.eqb part_type "rectangle" then
    width <- subscript "width" (p_width part) ;;
    height <- subscript "height" (p_height part) ;;
    Ok (width * height)
  else if String.eqb part_type "circle" then
    radius <- subscript "radius" (p_radius part) ;;
    Ok (np_pi * radius * radius)
  else if String.eqb part_type "triangle" then
    base <- subscript "base" (p_base part) ;;
    height <- subscript "height" (p_height part) ;;
    Ok ((1 # 2) * base * height)
  else Raise (unsupported part_type).

End GeometryUtils.

(* ================================================================== *)
(** * nesting_optimizer.py *)

(** [random.uniform(a, b)] draws from an explicit generator state. *)
Class Random : Type := {
  rng : Type;
  random_uniform : Q -> Q -> rng -> Q * rng
}.

(** [random.randrange(start, stop)]: [ValueError] on an empty range,
    otherwise one of [start, ..., stop - 1], each equally likely.  A
    finite uniform draw is the list of its equally likely values. *)
Definition randrange (start stop : Z) : result (list Z) :=
  if (start <? stop)%Z
  then Ok (map (fun i => (start + Z.of_nat i)%Z) (seq 0 (Z.to_nat (stop - start))))
  else Raise (ValueError "empty range for randrange()").

(** [range(n)] *)
Definition range (n : Z) : list Z := map Z.of_nat (seq 0 (Z.to_nat n)).

(** [len(l)] as a number. *)
Definition len {A : Type} (l : list A) : Z := Z.of_nat (List.length l).

(** A [for] loop whose body may raise, collecting what each round appends. *)
Fixpoint for_each {A B : Type} (body : A -> result B) (l : list A) : result (list B) :=
  match l with
  | [] => Ok []
  | a :: l' => b <- body a ;; bs <- for_each body l' ;; Ok (b :: bs)
  end.

(** A [creator.Individual]: a list of genes with its cached fitness
    ([None] once [del ind.fitness.values] has run). *)
Record individual : Type := mkIndividual {
  genes : list Q;
  fitness_values : option Q
}.

Definition layout_item : Type := (part_info * Q * Q * Q)%type.

Record NestingOptimizer : Type := mkOptimizer {
  sheet_width : Q;
  sheet_height : Q;
  population_size : Z;
  generations : Z;
  mutation_rate : Q;
  parts : list part_info
}.

(** The dict [calculate_layout_stats] returns. *)
Record layout_stats : Type := mkStats {
  st_utilization : Q;
  st_parts_placed : Z;
  st_total_parts : Z;
  st_total_area : Q;
  st_sheet_area : Q;
  st_waste_area : Q
}.

(** The overlap tolerance [1e-6]. *)
Definition eps : Q := 1 # 1000000.

(** nesting_optimizer.py, lines 26-30: the copies of one catalog entry. *)
Definition expand_part (part : part_info) : result (list part_info) :=
  let quantity := match p_quantity part with Some q => q | None => 1%Z end in
  for_each
    (fun i =>
       new_id <- (if (1 <? quantity)%Z
                  then id0 <- subscript "id" (p_id part) ;;
                       Ok (id0 ++ "_" ++ str_of_Z (i + 1))%string
                  else subscript "id" (p_id part)) ;;
       Ok (set_id part new_id))
    (range quantity).

(** nesting_optimizer.py, lines 22-31. *)
Fixpoint expand_parts_list (parts_data : list part_info) : result (list part_info) :=
  match parts_data with
  | [] => Ok []
  | part :: rest =>
      copies <- expand_part part ;;
      more <- expand_parts_list rest ;;
      Ok (copies ++ more)
  end.

Section Optimizer.
Context `{Shapely} `{Numpy} `{Random}.
Variable self : NestingOptimizer.

(** nesting_optimizer.py, lines 51-57: three draws per part. *)
Fixpoint create_genes (ps : list part_info) (g : rng) : list Q * rng :=
  match ps with
  | [] => ([], g)
  | _ :: ps' =>
      let (x, g1) := random_uniform 0 (sheet_width self) g in
      let (y, g2) := random_uniform 0 (sheet_height self) g1 in
      let (rotation, g3) := random_uniform 0 (2 * np_pi) g2 in
      let (rest, g4) := create_genes ps' g3 in
      ([x; y; rotation] ++ rest, g4)
  end.

(** nesting_optimizer.py, lines 49-58. *)
Definition create_individual (g : rng) : individual * rng :=
  let (gs, g') := create_genes (parts self) g in
  (mkIndividual gs None, g').

(** nesting_optimizer.py, lines 63-66: [individual[idx:idx+3]] unpacked
    into three names. *)
Fixpoint decode_from (ps : list part_info) (i : nat) (ind : list Q)
  : result (list layout_item) :=
  match ps with
  | [] => Ok []
  | part :: ps' =>
      let idx := (i * 3)%nat in
      match firstn 3 (skipn idx ind) with
      | [x; y; rotation] =>
          rest <- decode_from ps' (S i) ind ;;
          Ok ((part, x, y, rotation) :: rest)
      | _ => Raise (ValueError "not enough values to unpack (expected 3)")
      end
  end.

(** nesting_optimizer.py, lines 60-67. *)
Definition decode_individual (ind : list Q) : result (list layout_item) :=
  decode_from (parts self) 0 ind.

(** The sheet test of lines 88-89 and 195-196. *)
Definition within_sheet (b : bounds_t) : bool :=
  let '(b0, b1, b2, b3) := b in
  Qge_bool b0 0 && Qge_bool b1 0 &&
  Qle_bool b2 (sheet_width self) && Qle_bool b3 (sheet_height self).

(** nesting_optimizer.py, lines 92-98: the flag [overlaps]. *)
Fixpoint evaluate_overlaps (part_shape : Shape) (placed_parts : list Shape)
  : result bool :=
  match placed_parts with
  | [] => Ok false
  | placed_shape :: rest =>
      hit <- intersects part_shape placed_shape ;;
      if hit then
        common <- intersection part_shape placed_shape ;;
        let overlap_area := area common in
        if Qgt_bool overlap_area eps then Ok true
        else evaluate_overlaps part_shape rest
      else evaluate_overlaps part_shape rest
  end.

(** nesting_optimizer.py, lines 78-102: the body of the [try]. *)
Definition evaluate_try (st : list Shape * Q) (item : layout_item)
  : result (list Shape * Q) :=
  let '(placed_parts, total_area) := st in
  let '(part, x, y, rotation) := item in
  part_shape <- create_part_from_dict part ;;
  part_shape <- (if negb (Qeq_bool rotation 0)
                 then rotate part_shape rotation else Ok part_shape) ;;
  part_shape <- translate part_shape x y ;;
  if within_sheet (bounds part_shape) then
    overlaps <- evaluate_overlaps part_shape placed_parts ;;
    if negb overlaps
    then Ok (placed_parts ++ [part_shape], total_area + area part_shape)
    else Ok st
  else Ok st.

(** nesting_optimizer.py, lines 76-105: one round; [except Exception:
    continue] keeps the state. *)
Definition evaluate_step (st : list Shape * Q) (item : layout_item)
  : list Shape * Q :=
  match evaluate_try st item with
  | Ok st' => st'
  | Raise _ => st
  end.

Definition evaluate_loop (layout : list layout_item) : list Shape * Q :=
  fold_left evaluate_step layout ([], 0).

(** nesting_optimizer.py, lines 108-109. *)
Definition evaluate_utilization (total_area : Q) : result Q :=
  let sheet_area := sheet_width self * sheet_height self in
  if Qgt_bool sheet_area 0
  then q <- py_div total_area sheet_area ;; Ok (q * 100)
  else Ok 0.

(** nesting_optimizer.py, line 112. *)
Definition evaluate_placement_ratio (placed_parts : list Shape) : result Q :=
  match parts self with
  | [] => Ok 0
  | _ :: _ => py_div (inject_Z (len placed_parts)) (inject_Z (len (parts self)))
  end.

(** nesting_optimizer.py, lines 69-117; the 1-tuple is its component. *)
Definition evaluate_layout (ind : list Q) : result Q :=
  layout <- decode_individual ind ;;
  let '(placed_parts, total_area) := evaluate_loop layout in
  utilization <- evaluate_utilization total_area ;;
  placement_ratio <- evaluate_placement_ratio placed_parts ;;
  let fitness := utilization * ((1 # 2) + (1 # 2) * placement_ratio) in
  Ok fitness.

(** nesting_optimizer.py, lines 199-204: the flag [valid]. *)
Fixpoint stats_valid (part_shape : Shape) (placed_parts : list Shape)
  : result bool :=
  match placed_parts with
  | [] => Ok true
  | placed_shape :: rest =>
      hit <- intersects part_shape placed_shape ;;
      if hit then
        common <- intersection part_shape placed_shape ;;
        if Qgt_bool (area common) eps then Ok false
        else stats_valid part_shape rest
      else stats_valid part_shape rest
  end.

(** nesting_optimizer.py, lines 187-209: the body of the [try]. *)
Definition stats_try (st : list Shape * Q * Z) (item : layout_item)
  : result (list Shape * Q * Z) :=
  let '(placed_parts, total_area, parts_placed) := st in
  let '(part, x, y, rotation) := item in
  part_shape <- create_part_from_dict part ;;
  part_shape <- (if negb (Qeq_bool rotation 0)
                 then rotate part_shape rotation else Ok part_shape) ;;
  part_shape <- translate part_shape x y ;;
  if within_sheet (bounds part_shape) then
    valid <- stats_valid part_shape placed_parts ;;
    if valid
    then Ok (placed_parts ++ [part_shape], total_area + area part_shape,
             (parts_placed + 1)%Z)
    else Ok st
  else Ok st.

(** nesting_optimizer.py, lines 185-212. *)
Definition stats_step (st : list Shape * Q * Z) (item : layout_item)
  : list Shape * Q * Z :=
  match stats_try st item with
  | Ok st' => st'
  | Raise _ => st
  end.

Definition stats_loop (layout : list layout_item) : list Shape * Q * Z :=
  fold_left stats_step layout ([], 0, 0%Z).

(** nesting_optimizer.py, lines 179-225. *)
Definition calculate_layout_stats (layout : list layout_item) : result layout_stats :=
  let '(placed_parts, total_area, parts_placed) := stats_loop layout in
  let sheet_area := sheet_width self * sheet_height self in
  q <- py_div total_area sheet_area ;;
  let utilization := q * 100 in
  let waste_area := sheet_area - total_area in
  Ok (mkStats utilization parts_placed (len (parts self)) total_area
              sheet_area waste_area).

End Optimizer.

(** [del ind.fitness.values] *)
Definition invalidate (ind : individual) : individual :=
  mkIndividual (genes ind) None.

(** nesting_optimizer.py, line 125: both right-hand slices are read
    before either slice is assigned. *)
Definition swap_tails (cross_point : Z) (ind1 ind2 : individual)
  : individual * individual :=
  let n := Z.to_nat cross_point in
  let tail1 := skipn n (genes ind1) in
  let tail2 := skipn n (genes ind2) in
  (mkIndividual (firstn n (genes ind1) ++ tail2) (fitness_values ind1),
   mkIndividual (firstn n (genes ind2) ++ tail1) (fitness_values ind2)).

(** The cut indices line 124 can draw: [randrange(1, n // 3) * 3]. *)
Definition cross_points (ind1 : individual) : result (list Z) :=
  ks <- randrange 1 (len (genes ind1) / 3) ;;
  Ok (map (fun k => (k * 3)%Z) ks).

(** nesting_optimizer.py, lines 119-129: the equally likely results. *)
Definition crossover (ind1 ind2 : individual)
  : result (list (individual * individual)) :=
  if (len (genes ind1) >? 3)%Z then
    cps <- cross_points ind1 ;;
    Ok (map (fun cross_point =>
               let (c1, c2) := swap_tails cross_point ind1 ind2 in
               (invalidate c1, invalidate c2)) cps)
  else Ok [(invalidate ind1, invalidate ind2)].

(* ================================================================== *)
(** * A computable instance of the libraries

    Polygons are vertex lists (the exterior ring, without the closing
    vertex).  Area is the shoelace formula, bounds are the extreme
    coordinates, affine maps act on the vertices, and the intersection
    of two convex polygons of non-zero area is computed by clipping the
    first against every edge of the second.  Every shape the optimizer
    builds from positive dimensions is such a polygon. *)

Module PolyGeom.

Definition polygon : Type := list point.

(** One term of the shoelace sum. *)
Definition cross (p q : point) : Q := fst p * snd q - fst q * snd p.

(** Shoelace sum of the ring that continues [prev] through [l] and
    closes at [first]. *)
Fixpoint ring_sum (first prev : point) (l : list point) : Q :=
  match l with
  | [] => cross prev first
  | q :: l' => cross prev q + ring_sum first q l'
  end.

Definition shoelace (pts : polygon) : Q :=
  match pts with
  | [] => 0
  | p :: l => ring_sum p p l
  end.

Definition poly_area (pts : polygon) : Q := Qabs (shoelace pts) / 2.

Definition grow (b : bounds_t) (q : point) : bounds_t :=
  let '(b0, b1, b2, b3) := b in
  (Qmin b0 (fst q), Qmin b1 (snd q), Qmax b2 (fst q), Qmax b3 (snd q)).

(** Extreme coordinates; the empty polygon (whose bounds shapely leaves
    undefined) gets the origin. *)
Definition poly_bounds (pts : polygon) : bounds_t :=
  match pts with
  | [] => (0, 0, 0, 0)
  | p :: l => fold_left grow l (fst p, snd p, fst p, snd p)
  end.

(** [shapely.geometry.box(minx, miny, maxx, maxy)], counter-clockwise
    from the lower right corner. *)
Definition poly_box (minx miny maxx maxy : Q) : polygon :=
  [ (maxx, miny); (maxx, maxy); (minx, maxy); (minx, miny) ].

Definition poly_translate (pts : polygon) (xoff yoff : Q) : polygon :=
  map (fun p => (fst p + xoff, snd p + yoff)) pts.

(** shapely.affinity.rotate snaps a cosine or sine below 2.5e-16 to 0. *)
Definition snap (v : Q) : Q :=
  if Qgt_bool (25 # 100000000000000000) (Qabs v) then 0 else v.

(** [rotate(geom, angle, origin='center', use_radians=True)]: about the
    centre of the bounding box. *)
Definition poly_rotate `{Numpy} (pts : polygon) (angle : Q) : polygon :=
  let cosp := snap (np_cos angle) in
  let sinp := snap (np_sin angle) in
  let '(b0, b1, b2, b3) := poly_bounds pts in
  let x0 := (b0 + b2) / 2 in
  let y0 := (b1 + b3) / 2 in
  let xoff := x0 - x0 * cosp + y0 * sinp in
  let yoff := y0 - x0 * sinp - y0 * cosp in
  map (fun p => (cosp * fst p - sinp * snd p + xoff,
                 sinp * fst p + cosp * snd p + yoff)) pts.

(** Twice the signed area of the triangle a, b, p: positive when [p] is
    on the left of the edge from [a] to [b]. *)
Definition side (a b p : point) : Q :=
  (fst b - fst a) * (snd p - snd a) - (snd b - snd a) * (fst p - fst a).

Definition inside (a b p : point) : bool := Qle_bool 0 (side a b p).

(** The point where the segment p, q crosses the line a, b. *)
Definition cut (a b p q : point) : point :=
  let sp := side a b p in
  let sq := side a b q in
  let t := sp / (sp - sq) in
  (Qred (fst p + t * (fst q - fst p)), Qred (snd p + t * (snd q - snd p))).

(** Clip the ring entered from [prev] against the half-plane on the left
    of the edge a, b. *)
Fixpoint clip_from (a b prev : point) (l : list point) : list point :=
  match l with
  | [] => []
  | cur :: l' =>
      (if inside a b cur
       then (if inside a b prev then [cur] else [cut a b prev cur; cur])
       else (if inside a b prev then [cut a b prev cur] else []))
      ++ clip_from a b cur l'
  end.

Definition clip_edge (subject : polygon) (e : point * point) : polygon :=
  match subject with
  | [] => []
  | p :: _ => clip_from (fst e) (snd e) (last subject p) subject
  end.

(** The edges of a ring, the closing one last. *)
Fixpoint edges_from (first prev : point) (l : list point) : list (point * point) :=
  match l with
  | [] => [(prev, first)]
  | q :: l' => (prev, q) :: edges_from first q l'
  end.

Definition edges (pts : polygon) : list (point * point) :=
  match pts with
  | [] => []
  | p :: l => edges_from p p l
  end.

(** The ring in counter-clockwise order. *)
Definition ccw (pts : polygon) : polygon :=
  if Qle_bool 0 (shoelace pts) then pts else rev pts.

Definition poly_intersection (a b : polygon) : polygon :=
  fold_left clip_edge (edges (ccw b)) a.

Definition poly_intersects (a b : polygon) : bool :=
  match poly_intersection a b with
  | [] => false
  | _ :: _ => true
  end.

#[export] Instance shapely `{Numpy} : Shapely := {
  Shape := polygon;
  Box := fun minx miny maxx maxy => Ok (poly_box minx miny maxx maxy);
  Polygon := fun pts => Ok pts;
  rotate := fun s angle => Ok (poly_rotate s angle);
  translate := fun s x y => Ok (poly_translate s x y);
  bounds := poly_bounds;
  area := poly_area;
  intersects := fun a b => Ok (poly_intersects a b);
  intersection := fun a b => Ok (poly_intersection a b)
}.

(** Taylor polynomials of degree 24 and 25, and 355/113. *)
Fixpoint cos_terms (n : nat) (x2 term : Q) (k : Z) : Q :=
  match n with
  | O => 0
  | S n' => term + cos_terms n' x2
                     (Qred (- term * x2 / inject_Z ((k + 1) * (k + 2)))) (k + 2)
  end.

#[export] Instance numpy : Numpy := {
  np_pi := 355 # 113;
  np_cos := fun x => cos_terms 13 (x * x) 1 0;
  np_sin := fun x => cos_terms 13 (x * x) x 1
}.

(** A generator that always returns the low end of the interval. *)
#[export] Instance random : Random := {
  rng := unit;
  random_uniform := fun a _ g => (a, g)
}.

(** What [fold_left grow] keeps: the box only widens, and it contains
    every point folded in. *)
Definition box_contains (b : bounds_t) (q : point) : Prop :=
  let '(b0, b1, b2, b3) := b in
  b0 <= fst q /\ fst q <= b2 /\ b1 <= snd q /\ snd q <= b3.

Definition box_within (inner outer : bounds_t) : Prop :=
  let '(a0, a1, a2, a3) := inner in
  let '(b0, b1, b2, b3) := outer in
  b0 <= a0 /\ a2 <= b2 /\ b1 <= a1 /\ a3 <= b3.

End PolyGeom.

(* ================================================================== *)
(** * Notions the properties are stated with *)

Section Notions.
Context `{Shapely} `{Numpy}.
Variable self : NestingOptimizer.

(** Part number [i] of the layout is accepted when its round appends a
    shape to [placed_parts]. *)
Definition accepted_by_evaluate (layout : list layout_item) (i : nat) : bool :=
  (List.length (fst (evaluate_loop self (firstn i layout)))
   <? List.length (fst (evaluate_loop self (firstn (S i) layout))))%nat.

Definition accepted_by_stats (layout : list layout_item) (i : nat) : bool :=
  (List.length (fst (fst (stats_loop self (firstn i layout))))
   <? List.length (fst (fst (stats_loop self (firstn (S i) layout)))))%nat.

(** What the statistics loop holds when the fitness loop holds [st]. *)
Definition stats_of (st : list Shape * Q) : list Shape * Q * Z :=
  (fst st, snd st, len (fst st)).

(** The bounds of a shape lie within [0, sheet_width] x [0, sheet_height]. *)
Definition in_sheet (s : Shape) : Prop :=
  let '(b0, b1, b2, b3) := bounds s in
  0 <= b0 /\ 0 <= b1 /\ b2 <= sheet_width self /\ b3 <= sheet_height self.

(** The two shapes do not overlap beyond the tolerance: they do not
    intersect, or their intersection has an area of at most [eps]. *)
Definition within_eps (later earlier : Shape) : Prop :=
  intersects later earlier = Ok false
  \/ exists common, intersects later earlier = Ok true
                    /\ intersection later earlier = Ok common
                    /\ area common <= eps.

(** Every accepted shape is in the sheet, and every shape is within
    tolerance of every shape accepted before it. *)
Definition placement_ok (placed_parts : list Shape) : Prop :=
  Forall in_sheet placed_parts
  /\ ForallOrdPairs (fun earlier later => within_eps later earlier) placed_parts.

(** Lines 79-84 (and 188-191): the shape of a layout entry, built,
    rotated unless the rotation is 0, and translated. *)
Definition transformed_shape (item : layout_item) : result Shape :=
  let '(part, x, y, rotation) := item in
  part_shape <- create_part_from_dict part ;;
  part_shape <- (if negb (Qeq_bool rotation 0)
                 then rotate part_shape rotation else Ok part_shape) ;;
  translate part_shape x y.

(** The running sum of line 102 over a list of accepted shapes. *)
Definition area_sum (placed_parts : list Shape) : Q :=
  fold_left (fun total s => total + area s) placed_parts 0.

(** A shape of non-zero area has a bounding box of non-zero width and
    height. *)
Definition has_extent (s : Shape) : Prop :=
  ~ area s == 0 ->
  let '(b0, b1, b2, b3) := bounds s in b0 < b2 /\ b1 < b3.

End Notions.

(** The tags the three functions of geometry_utils.py dispatch on. *)
Definition supported (tag : string) : bool :=
  String.eqb tag "rectangle" || String.eqb tag "circle" || String.eqb tag "triangle".

(** [part.get('quantity', 1)] *)
Definition quantity_of (part : part_info) : Z :=
  match p_quantity part with Some q => q | None => 1%Z end.

(** [1, 2, ..., n] *)
Definition one_to (n : Z) : list Z := map Z.of_nat (seq 1 (Z.to_nat n)).

(** The ids of the copies of one catalog entry, in the words of the
    specification: suffixed [_1] to [_quantity] when the quantity exceeds
    1, the original id otherwise. *)
Definition spec_ids (id0 : string) (quantity : Z) : list string :=
  if (1 <? quantity)%Z
  then map (fun i => (id0 ++ "_" ++ str_of_Z i)%string) (one_to quantity)
  else repeat id0 (Z.to_nat quantity).

Definition spec_expand_part (part : part_info) : list part_info :=
  match p_id part with
  | Some id0 => map (set_id part) (spec_ids id0 (quantity_of part))
  | None => []
  end.

(** Catalog order, then replica order. *)
Definition spec_expand (catalog : list part_info) : list part_info :=
  flat_map spec_expand_part catalog.

(** The ids the specification has the expansion emit, catalog order then
    replica order. *)
Definition spec_emitted_ids (catalog : list part_info) : list string :=
  flat_map (fun part => match p_id part with
                        | Some id0 => spec_ids id0 (quantity_of part)
                        | None => []
                        end) catalog.

(** The keys of a part dictionary other than [id]. *)
Definition other_keys (part : part_info)
  : option string * option Z * option Q * option Q * option Q * option Q :=
  (p_type part, p_quantity part, p_width part, p_height part,
   p_radius part, p_base part).

(** The cut indices the specification names: 3, 6, ..., 3 * (N - 1). *)
Definition spec_cut_indices (N : nat) : list Z :=
  map (fun k => Z.of_nat (3 * k)) (seq 1 (N - 1)).

(** The offspring for a cut index, in the words of the specification:
    the gene tails from the cut are swapped and both cached fitnesses
    are dropped. *)
Definition spec_offspring (ind1 ind2 : individual) (cut : Z) : individual * individual :=
  let n := Z.to_nat cut in
  (mkIndividual (firstn n (genes ind1) ++ skipn n (genes ind2)) None,
   mkIndividual (firstn n (genes ind2) ++ skipn n (genes ind1)) None).

(** [placement_ratio] in the words of the specification. *)
Definition spec_placement_ratio (accepted_count N : Z) : Q :=
  if (N =? 0)%Z then 0 else inject_Z accepted_count / inject_Z N.

(** [score] in the words of the specification. *)
Definition spec_score (utilization placement_ratio : Q) : Q :=
  utilization * ((1 # 2) + (1 # 2) * placement_ratio).

(* ================================================================== *)
(** * The circle over the reals

    The circle branches of [create_part_from_dict] (lines 15-20) and of
    [calculate_part_area] (lines 62-64), read over the real numbers with
    [np.pi], [np.cos] and [np.sin] the real constant and functions, and
    the area of a polygon as shapely computes it (half the absolute value
    of the shoelace sum of its ring). *)

Module RealCircle.
Local Open Scope R_scope.

Definition rpoint : Type := (R * R)%type.

Definition rcross (p q : rpoint) : R := fst p * snd q - fst q * snd p.

Fixpoint rring_sum (first prev : rpoint) (l : list rpoint) : R :=
  match l with
  | [] => rcross prev first
  | q :: l' => rcross prev q + rring_sum first q l'
  end.

Definition rshoelace (pts : list rpoint) : R :=
  match pts with
  | [] => 0
  | p :: l => rring_sum p p l
  end.

(** [Polygon(points).area] *)
Definition polygon_area (pts : list rpoint) : R := Rabs (rshoelace pts) / 2.

(** [np.linspace(0, 2*np.pi, 32, endpoint=False)] *)
Definition circle_angles : list R :=
  map (fun k => 0 + INR k * ((2 * PI - 0) / 32)) (seq 0 32).

(** geometry_utils.py, lines 18-19: the ring of the circle. *)
Definition circle_points (radius : R) : list rpoint :=
  map (fun a => (radius * cos a, radius * sin a)) circle_angles.

(** geometry_utils.py, lines 63-64. *)
Definition circle_part_area (radius : R) : R := PI * radius * radius.

(** Vertex number [k] of the ring. *)
Definition vertex (radius : R) (k : nat) : rpoint :=
  (radius * cos (INR k * (PI / 16)), radius * sin (INR k * (PI / 16))).

End RealCircle.

(* ================================================================== *)
(** * Concrete inputs *)

Module Inputs.
Local Open Scope string_scope.

Definition rect (name : string) (w h : Q) : part_info :=
  mkPart (Some name) (Some "rectangle"%string) (Some 1%Z) (Some w) (Some h) None None.

Definition optimizer (w h : Q) (ps : list part_info) : NestingOptimizer :=
  mkOptimizer w h 50 30 (1 # 10) ps.

(** A 100 x 100 sheet, a 100 x 100 rectangle that fills it, and a square
    of side 1/1024 (area below 1e-6) in its middle. *)
Definition full_sheet : NestingOptimizer :=
  optimizer 100 100 [rect "plate" 100 100; rect "chip" (1 # 1024) (1 # 1024)].

Definition full_layout : list layout_item :=
  [ (rect "plate" 100 100, 50, 50, 0);
    (rect "chip" (1 # 1024) (1 # 1024), 50, 50, 0) ].

(** Three rectangles on a 10 x 10 sheet: the first genotype places only
    the 2 x 2 square, the second only the two 1 x 2 strips. *)
Definition three_parts : NestingOptimizer :=
  optimizer 10 10 [rect "a" 2 2; rect "b" 1 2; rect "c" 2 1].

(** The same three rectangles on a 20 x 10 sheet, whose area is 200. *)
Definition wide_sheet : NestingOptimizer :=
  optimizer 20 10 [rect "a" 2 2; rect "b" 1 2; rect "c" 2 1].

Definition square_only : list Q := [5; 5; 0; -5; 0; 0; -5; 0; 0].
Definition strips_only : list Q := [-5; 0; 0; 2; 2; 0; 6; 6; 0].

Definition square_layout : list layout_item :=
  [ (rect "a" 2 2, 5, 5, 0); (rect "b" 1 2, -5, 0, 0); (rect "c" 2 1, -5, 0, 0) ].
Definition strips_layout : list layout_item :=
  [ (rect "a" 2 2, -5, 0, 0); (rect "b" 1 2, 2, 2, 0); (rect "c" 2 1, 6, 6, 0) ].

Definition parent1 : individual :=
  mkIndividual [1; 2; 3; 4; 5; 6; 7; 8; 9] (Some 40).
Definition parent2 : individual :=
  mkIndividual [11; 12; 13; 14; 15; 16; 17; 18; 19] (Some 60).

Definition circle (name : string) (quantity : Z) (r : Q) : part_info :=
  mkPart (Some name) (Some "circle") (Some quantity) None None (Some r) None.

Definition catalog : list part_info := [circle "c1" 3 5; rect "r1" 100 50].

Definition hexagon : part_info :=
  mkPart (Some "h1") (Some "Hexagon") (Some 1%Z) (Some 3) (Some 3) None None.

End Inputs.

(* ================================================================== *)
(** * The remaining functions of geometry_utils.py *)

(** geometry_utils.py, lines 74-77. *)
Definition check_part_fits_sheet (part : part_info) (sheet_w sheet_h : Q)
  : result bool :=
  dims <- get_part_bounds part ;;
  let (width, height) := dims in
  Ok (Qle_bool width sheet_w && Qle_bool height sheet_h).

(** A copy of a part dict with the key [rotation] set. *)
Record part_variant : Type := mkVariant {
  variant_part : part_info;
  variant_rotation : Q
}.

Section Orientation.
Context `{Numpy}.

(** geometry_utils.py, lines 98-108. *)
Definition generate_part_variants (part : part_info) (num_rotations : Z)
  : result (list part_variant) :=
  for_each
    (fun i =>
       angle <- py_div (2 * np_pi * inject_Z i) (inject_Z num_rotations) ;;
       Ok (mkVariant part angle))
    (range num_rotations).

(** geometry_utils.py, lines 110-156: an angle, or [None]. *)
Definition optimize_part_orientation (part : part_info) (sheet_w sheet_h : Q)
  : result (option Q) :=
  t <- subscript "type" (p_type part) ;;
  let part_type := lower t in
  if String.eqb part_type "rectangle" then
    width <- subscript "width" (p_width part) ;;
    height <- subscript "height" (p_height part) ;;
    if Qle_bool width sheet_w && Qle_bool height sheet_h then
      if Qle_bool height sheet_w && Qle_bool width sheet_h then
        let waste1 := (sheet_w - width) * (sheet_h - height) in
        let waste2 := (sheet_w - height) * (sheet_h - width) in
        Ok (Some (if Qle_bool waste1 waste2 then 0 else np_pi / 2))
      else Ok (Some 0)
    else if Qle_bool height sheet_w && Qle_bool width sheet_h then
      Ok (Some (np_pi / 2))
    else Ok None
  else if String.eqb part_type "circle" then
    radius <- subscript "radius" (p_radius part) ;;
    if Qle_bool (2 * radius) (Qmin sheet_w sheet_h) then Ok (Some 0)
    else Ok None
  else if String.eqb part_type "triangle" then
    base <- subscript "base" (p_base part) ;;
    height <- subscript "height" (p_height part) ;;
    let orientations := [0; np_pi / 3; 2 * np_pi / 3; np_pi;
                         4 * np_pi / 3; 5 * np_pi / 3] in
    let valid_orientations :=
      filter (fun angle => Qle_bool base sheet_w && Qle_bool height sheet_h)
             orientations in
    match valid_orientations with
    | first :: _ => Ok (Some first)
    | [] => Ok None
    end
  else Ok (Some 0).

End Orientation.

(** geometry_utils.py, lines 79-96, over the reals ([np.cos], [np.sin]
    the real functions). *)
Module RealRotation.
Local Open Scope R_scope.

Definition rotate_point (x y angle cx cy : R) : R * R :=
  let cos_angle := cos angle in
  let sin_angle := sin angle in
  let x := x - cx in
  let y := y - cy in
  let new_x := x * cos_angle - y * sin_angle in
  let new_y := x * sin_angle + y * cos_angle in
  let new_x := new_x + cx in
  let new_y := new_y + cy in
  (new_x, new_y).

(** Squared distance of a point to a centre. *)
Definition dist2 (p : R * R) (cx cy : R) : R :=
  (fst p - cx) * (fst p - cx) + (snd p - cy) * (snd p - cy).

End RealRotation.

(* ================================================================== *)
(** * The remaining methods of nesting_optimizer.py *)

(** [random.random()] on the generator state of [Random]. *)
Class RandomUnit `{Random} : Type := {
  random_random : rng -> Q * rng
}.

(** A list assignment [l[i] = v] either succeeds or raises [IndexError]. *)
Inductive index_result (A : Type) : Type :=
| InRange (a : A)
| IndexError.

Arguments InRange {A} a.
Arguments IndexError {A}.

Definition index_bind {A B : Type} (r : index_result A)
           (k : A -> index_result B) : index_result B :=
  match r with
  | InRange a => k a
  | IndexError => IndexError
  end.

(** [l[i] = v] for [i >= 0]. *)
Definition setitem (l : list Q) (i : nat) (v : Q) : index_result (list Q) :=
  if (i <? List.length l)%nat
  then InRange (firstn i l ++ v :: skipn (S i) l)
  else IndexError.

(** [range(0, n, 3)] *)
Definition range_step3 (n : nat) : list nat :=
  map (fun k => (3 * k)%nat) (seq 0 ((n + 2) / 3)).

(** [self.parts = ...] *)
Definition set_parts (self : NestingOptimizer) (ps : list part_info)
  : NestingOptimizer :=
  mkOptimizer (sheet_width self) (sheet_height self) (population_size self)
              (generations self) (mutation_rate self) ps.

Section Mutation.
Context `{Numpy} `{RandomUnit}.
Variable self : NestingOptimizer.

(** nesting_optimizer.py, lines 134-141: one round of the loop. *)
Definition mutate_at (i : nat) (st : list Q * rng)
  : index_result (list Q * rng) :=
  let '(ind, g) := st in
  let (r1, g1) := random_random g in
  if Qgt_bool (mutation_rate self) r1 then
    let (r2, g2) := random_random g1 in
    if Qgt_bool (1 # 2) r2 then
      let (x, g3) := random_uniform 0 (sheet_width self) g2 in
      index_bind (setitem ind i x) (fun ind1 =>
      let (y, g4) := random_uniform 0 (sheet_height self) g3 in
      index_bind (setitem ind1 (i + 1) y) (fun ind2 =>
      InRange (ind2, g4)))
    else
      let (rotation, g3) := random_uniform 0 (2 * np_pi) g2 in
      index_bind (setitem ind (i + 2) rotation) (fun ind1 =>
      InRange (ind1, g3))
  else InRange (ind, g1).

Fixpoint mutate_loop (indices : list nat) (st : list Q * rng)
  : index_result (list Q * rng) :=
  match indices with
  | [] => InRange st
  | i :: rest => index_bind (mutate_at i st) (mutate_loop rest)
  end.

(** nesting_optimizer.py, lines 131-144; the 1-tuple is its component. *)
Definition mutate (ind : individual) (g : rng) : index_result (individual * rng) :=
  index_bind (mutate_loop (range_step3 (List.length (genes ind))) (genes ind, g))
             (fun st => InRange (mkIndividual (fst st) None, snd st)).

End Mutation.

Section Baseline.
Context `{Shapely} `{Numpy} `{Random}.

(** nesting_optimizer.py, lines 231-236. *)
Fixpoint random_entries (self : NestingOptimizer) (ps : list part_info) (g : rng)
  : list layout_item * rng :=
  match ps with
  | [] => ([], g)
  | part :: ps' =>
      let (x, g1) := random_uniform 0 (sheet_width self) g in
      let (y, g2) := random_uniform 0 (sheet_height self) g1 in
      let (rotation, g3) := random_uniform 0 (2 * np_pi) g2 in
      let (rest, g4) := random_entries self ps' g3 in
      ((part, x, y, rotation) :: rest, g4)
  end.

(** nesting_optimizer.py, lines 227-239; the optimizer with its [parts]
    replaced and the generator state are returned with the pair. *)
Definition create_random_layout (self : NestingOptimizer)
           (parts_data : list part_info) (g : rng)
  : result (list layout_item * layout_stats * NestingOptimizer * rng) :=
  expanded <- expand_parts_list parts_data ;;
  let self' := set_parts self expanded in
  let (layout, g') := random_entries self' (parts self') g in
  stats <- calculate_layout_stats self' layout ;;
  Ok (layout, stats, self', g').

End Baseline.

(** The genes of a layout, triple by triple. *)
Definition layout_genes (layout : list layout_item) : list Q :=
  flat_map (fun item => let '(_, x, y, rotation) := item in [x; y; rotation])
           layout.

(** The parts of a layout, in order. *)
Definition layout_parts (layout : list layout_item) : list part_info :=
  map (fun item => fst (fst (fst item))) layout.

(** How [mutate] may change a list of triples: each triple is kept, or
    gets a new position with its rotation kept, or gets a new rotation
    with its position kept. *)
Inductive mutated : list Q -> list Q -> Prop :=
| mutated_nil : mutated [] []
| mutated_keep x y r l l' :
    mutated l l' -> mutated (x :: y :: r :: l) (x :: y :: r :: l')
| mutated_position x y r x' y' l l' :
    mutated l l' -> mutated (x :: y :: r :: l) (x' :: y' :: r :: l')
| mutated_rotation x y r r' l l' :
    mutated l l' -> mutated (x :: y :: r :: l) (x :: y :: r' :: l').

(** A generator that reads its draws in [0, 1] from a tape:
    [random.uniform(a, b)] is [a + (b - a) * random.random()]. *)
Module Tape.

#[export] Instance random : Random := {
  rng := list Q;
  random_uniform := fun a b g =>
    match g with
    | [] => (a, [])
    | u :: g' => (a + (b - a) * u, g')
    end
}.

#[export] Instance random_unit : RandomUnit := {
  random_random := fun g =>
    match g with
    | [] => (0, [])
    | u :: g' => (u, g')
    end
}.

End Tape.

(** The position of a layout entry is on the sheet and its rotation is
    within one turn. *)
Definition entry_on_sheet `{Numpy} (self : NestingOptimizer)
           (item : layout_item) : Prop :=
  let '(_, x, y, rotation) := item in
  (0 <= x /\ x <= sheet_width self)
  /\ (0 <= y /\ y <= sheet_height self)
  /\ (0 <= rotation /\ rotation <= 2 * np_pi).

(** A generator whose [random()] is always 1/2, on the generator of the
    polygon instance. *)
Module Steady.

#[export] Instance random_unit : @RandomUnit PolyGeom.random := {
  random_random := fun g => (1 # 2, g)
}.

End Steady.

(** Further concrete inputs. *)
Module MoreInputs.
Import Inputs.
Local Open Scope string_scope.

Definition short_parent : individual := mkIndividual [1; 2; 3; 4; 5; 6] (Some 7).

(** Draws for two triples: the first gets a new position, the second a
    new rotation. *)
Definition tape : list Q := [0; 0; 1 # 2; 1 # 4; 0; 3 # 4; 1 # 2].

Definition resting : NestingOptimizer :=
  mkOptimizer 10 10 50 30 0 [rect "a" 2 2; rect "b" 1 2].

Definition triangle (name : string) (b h : Q) : part_info :=
  mkPart (Some name) (Some "Triangle") None None (Some h) None (Some b).

(** A catalog of two rectangles. *)
Definition two_rects : list part_info := [rect "a" 2 2; rect "b" 1 2].

End MoreInputs.

(* ################################################################## *)
(** * Properties *)

(* ================================================================== *)
(** * The two acceptance loops agree (evaluate_layout, calculate_layout_stats) *)

Section Acceptance.
Context `{Shapely} `{Numpy}.
Variable self : NestingOptimizer.

Lemma stats_valid_negates_overlaps (s : Shape) (placed : list Shape) :
  stats_valid s placed = (b <- evaluate_overlaps s placed ;; Ok (negb b)).
Proof.
  induction placed as [|p placed IH]; simpl; [reflexivity|].
  destruct (intersects s p) as [[|]|e]; simpl; try assumption; try reflexivity.
  destruct (intersection s p) as [c|e]; simpl; [|reflexivity].
  destruct (Qgt_bool (area c) eps); simpl; [reflexivity|assumption].
Qed.

Lemma len_snoc {A : Type} (l : list A) (a : A) : len (l ++ [a]) = (len l + 1)%Z.
Proof. unfold len. rewrite length_app. simpl. lia. Qed.

Lemma stats_step_of (st : list Shape * Q) (item : layout_item) :
  stats_step self (stats_of st) item = stats_of (evaluate_step self st item).
Proof.
  destruct st as [placed total]. destruct item as [[[part x] y] rotation].
  unfold stats_step, evaluate_step, stats_try, evaluate_try, stats_of. simpl.
  destruct (create_part_from_dict part) as [s0|e]; simpl; [|reflexivity].
  destruct (if negb (Qeq_bool rotation 0) then rotate s0 rotation else Ok s0)
    as [s1|e]; simpl; [|reflexivity].
  destruct (translate s1 x y) as [s2|e]; simpl; [|reflexivity].
  destruct (within_sheet self (bounds s2)); simpl; [|reflexivity].
  rewrite stats_valid_negates_overlaps.
  destruct (evaluate_overlaps s2 placed) as [[|]|e]; simpl; try reflexivity.
  now rewrite len_snoc.
Qed.

Lemma stats_fold_of (layout : list layout_item) (st : list Shape * Q) :
  fold_left (stats_step self) layout (stats_of st)
  = stats_of (fold_left (evaluate_step self) layout st).
Proof.
  revert st. induction layout as [|item layout IH]; intros st; simpl.
  - reflexivity.
  - rewrite stats_step_of. apply IH.
Qed.

Lemma stats_loop_of (layout : list layout_item) :
  stats_loop self layout = stats_of (evaluate_loop self layout).
Proof. unfold stats_loop, evaluate_loop. apply (stats_fold_of layout ([], 0)). Qed.

(** C1.  For every layout and sheet, the loop of [calculate_layout_stats]
    ends with the same list of accepted shapes (same shapes, same order)
    and the same total area as the loop of [evaluate_layout], its counter
    is the length of that list, the two loops take the same accept/skip
    decision on every part of the layout, and the statistics report that
    count and that area. *)
Theorem C1_same_acceptance (layout : list layout_item) :
  fst (fst (stats_loop self layout)) = fst (evaluate_loop self layout)
  /\ snd (fst (stats_loop self layout)) = snd (evaluate_loop self layout)
  /\ snd (stats_loop self layout) = len (fst (evaluate_loop self layout))
  /\ (forall i, accepted_by_stats self layout i = accepted_by_evaluate self layout i)
  /\ (forall stats, calculate_layout_stats self layout = Ok stats ->
        st_parts_placed stats = len (fst (evaluate_loop self layout))
        /\ st_total_area stats = snd (evaluate_loop self layout)).
Proof.
  rewrite stats_loop_of. split; [reflexivity|]. split; [reflexivity|].
  split; [reflexivity|]. split.
  - intros i. unfold accepted_by_stats, accepted_by_evaluate.
    now rewrite !stats_loop_of.
  - intros stats. unfold calculate_layout_stats.
    rewrite stats_loop_of. unfold stats_of.
    destruct (py_div (snd (evaluate_loop self layout))
                     (sheet_width self * sheet_height self)) as [q|e];
      simpl; [|discriminate].
    intros [= <-]. split; reflexivity.
Qed.

End Acceptance.

(* ================================================================== *)
(** * The invariant of the acceptance loop *)

Section Invariant.
Context `{Shapely} `{Numpy}.
Variable self : NestingOptimizer.

Lemma within_sheet_in_sheet (s : Shape) :
  within_sheet self (bounds s) = true -> in_sheet self s.
Proof.
  unfold within_sheet, in_sheet, Qge_bool.
  destruct (bounds s) as [[[b0 b1] b2] b3].
  rewrite !andb_true_iff, !Qle_bool_iff. tauto.
Qed.

Lemma Qgt_bool_false (a b : Q) : Qgt_bool a b = false -> a <= b.
Proof.
  unfold Qgt_bool. rewrite negb_false_iff. apply Qle_bool_iff.
Qed.

Lemma evaluate_overlaps_false (s : Shape) (placed : list Shape) :
  evaluate_overlaps s placed = Ok false -> Forall (within_eps s) placed.
Proof.
  induction placed as [|p placed IH]; simpl; intros E; constructor.
  - destruct (intersects s p) as [[|]|e] eqn:Ei; simpl in E; try discriminate.
    + destruct (intersection s p) as [c|e] eqn:Ec; simpl in E; [|discriminate].
      destruct (Qgt_bool (area c) eps) eqn:Eg; [discriminate|].
      right. exists c. auto using Qgt_bool_false.
    + now left.
  - apply IH.
    destruct (intersects s p) as [[|]|e]; simpl in E; try discriminate; auto.
    destruct (intersection s p) as [c|e]; simpl in E; [|discriminate].
    destruct (Qgt_bool (area c) eps); [discriminate|assumption].
Qed.

Lemma ForallOrdPairs_snoc {A : Type} (R : A -> A -> Prop) (l : list A) (a : A) :
  ForallOrdPairs R l -> Forall (fun e => R e a) l -> ForallOrdPairs R (l ++ [a]).
Proof.
  induction 1 as [|b l Hb Hl IH]; intros Ha; simpl.
  - repeat constructor.
  - inversion Ha; subst. constructor.
    + apply Forall_app. split; [assumption|]. now constructor.
    + now apply IH.
Qed.

Lemma placement_ok_snoc (placed : list Shape) (s : Shape) :
  placement_ok self placed -> in_sheet self s -> Forall (within_eps s) placed ->
  placement_ok self (placed ++ [s]).
Proof.
  intros [Hin Hsep] Hs Hnew. split.
  - apply Forall_app. split; [assumption|]. now constructor.
  - now apply ForallOrdPairs_snoc.
Qed.

Lemma evaluate_step_ok (st : list Shape * Q) (item : layout_item) :
  placement_ok self (fst st) -> placement_ok self (fst (evaluate_step self st item)).
Proof.
  intros Hok. destruct st as [placed total].
  destruct item as [[[part x] y] rotation].
  unfold evaluate_step, evaluate_try.
  destruct (create_part_from_dict part) as [s0|e]; simpl; [|assumption].
  destruct (if negb (Qeq_bool rotation 0) then rotate s0 rotation else Ok s0)
    as [s1|e]; simpl; [|assumption].
  destruct (translate s1 x y) as [s2|e]; simpl; [|assumption].
  destruct (within_sheet self (bounds s2)) eqn:Ew; simpl; [|assumption].
  destruct (evaluate_overlaps s2 placed) as [[|]|e] eqn:Eo; simpl; try assumption.
  apply placement_ok_snoc; auto using within_sheet_in_sheet, evaluate_overlaps_false.
Qed.

Lemma evaluate_fold_ok (layout : list layout_item) (st : list Shape * Q) :
  placement_ok self (fst st) ->
  placement_ok self (fst (fold_left (evaluate_step self) layout st)).
Proof.
  revert st. induction layout as [|item layout IH]; intros st Hok; simpl.
  - assumption.
  - apply IH. now apply evaluate_step_ok.
Qed.

Lemma placement_ok_nil : placement_ok self [].
Proof. split; constructor. Qed.

(** C3.  After every number [n] of rounds of the acceptance loop, in
    fitness evaluation and in statistics alike, the accepted shapes lie
    within the sheet and each of them is within the tolerance [eps] of
    every shape accepted before it. *)
Theorem C3_acceptance_invariant (layout : list layout_item) (n : nat) :
  placement_ok self (fst (evaluate_loop self (firstn n layout)))
  /\ placement_ok self (fst (fst (stats_loop self (firstn n layout)))).
Proof.
  assert (placement_ok self (fst (evaluate_loop self (firstn n layout)))) as Hev.
  { apply evaluate_fold_ok. exact placement_ok_nil. }
  split; [exact Hev|].
  rewrite stats_loop_of. exact Hev.
Qed.

End Invariant.

(* ================================================================== *)
(** * Shape kinds: dispatch on the lower-cased tag, and fail-soft rounds *)

Section ShapeKinds.
Context `{Shapely} `{Numpy}.

Lemma lower_ascii_idem (c : ascii) : lower_ascii (lower_ascii c) = lower_ascii c.
Proof. destruct c as [[] [] [] [] [] [] [] []]; reflexivity. Qed.

Lemma lower_idem (s : string) : lower (lower s) = lower s.
Proof.
  induction s as [|c s IH]; simpl; [reflexivity|].
  now rewrite lower_ascii_idem, IH.
Qed.

Lemma supported_cases (tag : string) :
  supported tag = false ->
  String.eqb tag "rectangle" = false /\ String.eqb tag "circle" = false
  /\ String.eqb tag "triangle" = false.
Proof.
  unfold supported. rewrite !orb_false_iff. tauto.
Qed.

Lemma create_unsupported (part : part_info) (t : string) :
  p_type part = Some t -> supported (lower t) = false ->
  create_part_from_dict part = Raise (unsupported (lower t)).
Proof.
  intros Et Hs. apply supported_cases in Hs as (Hr & Hc & Ht).
  unfold create_part_from_dict. rewrite Et. simpl.
  now rewrite Hr, Hc, Ht.
Qed.

Lemma evaluate_try_transformed (self : NestingOptimizer)
      (st : list Shape * Q) (item : layout_item) (e : exn) :
  transformed_shape item = Raise e -> evaluate_try self st item = Raise e.
Proof.
  destruct st as [placed total]. destruct item as [[[part x] y] rotation].
  unfold transformed_shape, evaluate_try.
  destruct (create_part_from_dict part) as [s0|e0]; simpl;
    [|now intros [= ->]].
  destruct (if negb (Qeq_bool rotation 0) then rotate s0 rotation else Ok s0)
    as [s1|e1]; simpl; [|now intros [= ->]].
  destruct (translate s1 x y) as [s2|e2]; simpl; [discriminate|now intros [= ->]].
Qed.

Lemma evaluate_step_raise (self : NestingOptimizer)
      (st : list Shape * Q) (item : layout_item) (e : exn) :
  evaluate_try self st item = Raise e -> evaluate_step self st item = st.
Proof. unfold evaluate_step. now intros ->. Qed.

Lemma evaluate_loop_skip (self : NestingOptimizer)
      (pre post : list layout_item) (item : layout_item) :
  (forall st, evaluate_step self st item = st) ->
  evaluate_loop self (pre ++ item :: post) = evaluate_loop self (pre ++ post).
Proof.
  intros Hskip. unfold evaluate_loop.
  rewrite !fold_left_app. simpl. now rewrite Hskip.
Qed.

(** C7 (as amended).  [create_part_from_dict] raises the unsupported-kind
    error for every tag whose lower-casing is none of the three kinds;
    and in fitness evaluation a part whose construction or transform
    raises (indeed any exception raised in the round) leaves the accepted
    list and the accepted area as they were, the remaining parts being
    evaluated as if that part were not in the layout. *)
Theorem C7_unsupported_kind_and_fail_soft :
  (forall part t, p_type part = Some t -> supported (lower t) = false ->
                  create_part_from_dict part = Raise (unsupported (lower t)))
  /\ (forall self st item e,
        transformed_shape item = Raise e \/ evaluate_try self st item = Raise e ->
        evaluate_step self st item = st)
  /\ (forall self pre post item e,
        transformed_shape item = Raise e ->
        evaluate_loop self (pre ++ item :: post) = evaluate_loop self (pre ++ post)).
Proof.
  split; [exact create_unsupported|]. split.
  - intros self st item e [Ht|Ht].
    + eapply evaluate_step_raise, evaluate_try_transformed, Ht.
    + eapply evaluate_step_raise, Ht.
  - intros self pre post item e Ht. apply evaluate_loop_skip.
    intros st. eapply evaluate_step_raise, evaluate_try_transformed, Ht.
Qed.

Lemma bounds_unsupported_iff (part : part_info) (t : string) :
  supported (lower t) = false <->
  get_part_bounds (set_type part t) = Raise (unsupported (lower t)).
Proof.
  destruct part as [i ty q w h r b].
  unfold get_part_bounds, supported, unsupported.
  cbn [p_type p_width p_height p_radius p_base set_type subscript bind].
  destruct (String.eqb (lower t) "rectangle");
    [destruct w, h; simpl; split; discriminate|].
  destruct (String.eqb (lower t) "circle");
    [destruct r; simpl; split; discriminate|].
  destruct (String.eqb (lower t) "triangle");
    [destruct b, h; simpl; split; discriminate|].
  simpl. tauto.
Qed.

Lemma area_unsupported_iff (part : part_info) (t : string) :
  supported (lower t) = false <->
  calculate_part_area (set_type part t) = Raise (unsupported (lower t)).
Proof.
  destruct part as [i ty q w h r b].
  unfold calculate_part_area, supported, unsupported.
  cbn [p_type p_width p_height p_radius p_base set_type subscript bind].
  destruct (String.eqb (lower t) "rectangle");
    [destruct w, h; simpl; split; discriminate|].
  destruct (String.eqb (lower t) "circle");
    [destruct r; simpl; split; discriminate|].
  destruct (String.eqb (lower t) "triangle");
    [destruct b, h; simpl; split; discriminate|].
  simpl. tauto.
Qed.

(** C9.  The three functions of geometry_utils.py dispatch on the
    lower-cased tag: a tag and its lower-casing give the same result (the
    same shape, bounds, area or exception); a tag that lower-cases to
    "rectangle", "circle" or "triangle" builds that kind; and the
    unsupported-kind error is raised exactly for the tags whose
    lower-casing is none of the three. *)
Theorem C9_case_insensitive_dispatch (part : part_info) (t : string) :
  (create_part_from_dict (set_type part t)
   = create_part_from_dict (set_type part (lower t))
   /\ get_part_bounds (set_type part t) = get_part_bounds (set_type part (lower t))
   /\ calculate_part_area (set_type part t)
      = calculate_part_area (set_type part (lower t)))
  /\ (forall kind, supported kind = true -> lower t = kind ->
        create_part_from_dict (set_type part t)
        = create_part_from_dict (set_type part kind)
        /\ get_part_bounds (set_type part t) = get_part_bounds (set_type part kind)
        /\ calculate_part_area (set_type part t)
           = calculate_part_area (set_type part kind))
  /\ (supported (lower t) = false <->
        get_part_bounds (set_type part t) = Raise (unsupported (lower t)))
  /\ (supported (lower t) = false <->
        calculate_part_area (set_type part t) = Raise (unsupported (lower t)))
  /\ (supported (lower t) = false ->
        create_part_from_dict (set_type part t) = Raise (unsupported (lower t)))
  /\ (lower t = "rectangle"%string ->
        create_part_from_dict (set_type part t)
        = (width <- subscript "width" (p_width part) ;;
           height <- subscript "height" (p_height part) ;;
           Box (- width / 2) (- height / 2) (width / 2) (height / 2)))
  /\ (lower t = "circle"%string ->
        create_part_from_dict (set_type part t)
        = (radius <- subscript "radius" (p_radius part) ;;
           Polygon (map (fun a => (radius * np_cos a, radius * np_sin a))
                        (linspace_open 0 (2 * np_pi) 32))))
  /\ (lower t = "triangle"%string ->
        create_part_from_dict (set_type part t)
        = (base <- subscript "base" (p_base part) ;;
           height <- subscript "height" (p_height part) ;;
           Polygon [ (- base / 2, - height / 3); (base / 2, - height / 3);
                     (0, 2 * height / 3) ])).
Proof.
  assert (create_part_from_dict (set_type part t)
          = create_part_from_dict (set_type part (lower t))
          /\ get_part_bounds (set_type part t)
             = get_part_bounds (set_type part (lower t))
          /\ calculate_part_area (set_type part t)
             = calculate_part_area (set_type part (lower t))) as Hsame.
  { unfold create_part_from_dict, get_part_bounds, calculate_part_area.
    simpl. rewrite lower_idem. auto. }
  split; [exact Hsame|]. split; [|split; [|split; [|split; [|split; [|split]]]]].
  - intros kind Hk <-. exact Hsame.
  - apply bounds_unsupported_iff.
  - apply area_unsupported_iff.
  - intros Hs. now apply create_unsupported.
  - intros Et. unfold create_part_from_dict.
    cbn [p_type p_width p_height set_type subscript bind]. now rewrite Et.
  - intros Et. unfold create_part_from_dict.
    cbn [p_type p_radius set_type subscript bind]. now rewrite Et.
  - intros Et. unfold create_part_from_dict.
    cbn [p_type p_base p_height set_type subscript bind]. now rewrite Et.
Qed.

End ShapeKinds.

(* ================================================================== *)
(** * Catalog expansion and genotype length *)

Lemma for_each_pure {A B : Type} (f : A -> B) (l : list A) :
  for_each (fun a => Ok (f a)) l = Ok (map f l).
Proof.
  induction l as [|a l IH]; simpl; [reflexivity|]. now rewrite IH.
Qed.


Lemma range_nonpos (q : Z) : (q <= 0)%Z -> range q = [].
Proof.
  intros Hq. unfold range. replace (Z.to_nat q) with 0%nat by lia. reflexivity.
Qed.

Lemma one_to_range (q : Z) : one_to q = map (fun i => (i + 1)%Z) (range q).
Proof.
  unfold one_to, range. rewrite <- seq_shift, !map_map.
  apply map_ext. intros k. lia.
Qed.

Lemma expand_part_spec (part : part_info) (id0 : string) :
  p_id part = Some id0 -> expand_part part = Ok (spec_expand_part part).
Proof.
  intros Eid. unfold expand_part, spec_expand_part, spec_ids.
  rewrite Eid. fold (quantity_of part). simpl.
  destruct (1 <? quantity_of part)%Z eqn:Eq; simpl.
  - rewrite (for_each_pure
               (fun i => set_id part (id0 ++ "_" ++ str_of_Z (i + 1))%string)).
    now rewrite one_to_range, !map_map.
  - rewrite (for_each_pure (fun _ => set_id part id0)).
    apply Z.ltb_ge in Eq. unfold range.
    destruct (Z.to_nat (quantity_of part)) as [|[|n]] eqn:En; try reflexivity.
    lia.
Qed.

Lemma expand_part_nonpos (part : part_info) :
  (quantity_of part <= 0)%Z -> expand_part part = Ok [].
Proof.
  intros Hq. unfold expand_part. fold (quantity_of part).
  now rewrite (range_nonpos _ Hq).
Qed.

Lemma spec_ids_length (id0 : string) (q : Z) :
  len (spec_ids id0 q) = Z.max 0 q.
Proof.
  unfold spec_ids, len, one_to.
  destruct (1 <? q)%Z; rewrite ?length_map, ?length_seq, ?repeat_length; lia.
Qed.

Lemma expand_parts_list_spec (catalog : list part_info) :
  Forall (fun part => p_id part <> None) catalog ->
  expand_parts_list catalog = Ok (spec_expand catalog).
Proof.
  induction 1 as [|part catalog Hid _ IH]; simpl; [reflexivity|].
  destruct (p_id part) as [id0|] eqn:Eid; [|contradiction].
  now rewrite (expand_part_spec part id0 Eid), IH.
Qed.

Lemma set_id_ids (part : part_info) (ids : list string) :
  map p_id (map (set_id part) ids) = map Some ids.
Proof. rewrite map_map. reflexivity. Qed.

Lemma set_id_other_keys (part : part_info) (ids : list string) :
  map other_keys (map (set_id part) ids)
  = repeat (other_keys part) (List.length ids).
Proof.
  induction ids as [|new_id ids IH]; simpl; [reflexivity|].
  now rewrite IH.
Qed.

Lemma spec_ids_count (id0 : string) (q : Z) :
  List.length (spec_ids id0 q) = Z.to_nat q.
Proof.
  unfold spec_ids, one_to.
  destruct (1 <? q)%Z; now rewrite ?length_map, ?length_seq, ?repeat_length.
Qed.

Lemma spec_expand_ids (catalog : list part_info) :
  Forall (fun part => p_id part <> None) catalog ->
  map p_id (spec_expand catalog) = map Some (spec_emitted_ids catalog).
Proof.
  unfold spec_expand, spec_emitted_ids.
  induction 1 as [|part catalog Hid _ IH]; cbn [flat_map]; [reflexivity|].
  rewrite !map_app, IH. f_equal.
  unfold spec_expand_part.
  destruct (p_id part) as [id0|]; [apply set_id_ids|contradiction].
Qed.

Lemma spec_expand_other_keys (catalog : list part_info) :
  Forall (fun part => p_id part <> None) catalog ->
  map other_keys (spec_expand catalog)
  = flat_map (fun part => repeat (other_keys part)
                                 (Z.to_nat (quantity_of part)))
             catalog.
Proof.
  unfold spec_expand.
  induction 1 as [|part catalog Hid _ IH]; cbn [flat_map]; [reflexivity|].
  rewrite map_app, IH. f_equal.
  unfold spec_expand_part.
  destruct (p_id part) as [id0|]; [|contradiction].
  now rewrite set_id_other_keys, spec_ids_count.
Qed.

Section Genotype.
Context `{Numpy} `{Random}.

Lemma create_genes_length (self : NestingOptimizer) (ps : list part_info) (g : rng) :
  List.length (fst (create_genes self ps g)) = (3 * List.length ps)%nat.
Proof.
  revert g. induction ps as [|p ps IH]; intros g; simpl; [reflexivity|].
  destruct (random_uniform 0 (sheet_width self) g) as [x g1].
  destruct (random_uniform 0 (sheet_height self) g1) as [y g2].
  destruct (random_uniform 0 (2 * np_pi) g2) as [r g3].
  specialize (IH g3). destruct (create_genes self ps g3) as [rest g4].
  simpl in *. lia.
Qed.

(** C8.  For every catalog whose entries carry an id, expansion returns
    the copies of each entry in catalog order then replica order: as many
    copies as its quantity (none when the quantity is not positive), with
    ids suffixed [_1] to [_quantity] when the quantity exceeds 1 and the
    original id when it is 1, every other key of a copy being that of its
    entry; the ids read off the result are exactly those ids, in that
    order; and an individual created for an optimizer whose parts are
    that expansion has exactly 3 genes per expanded part. *)
Theorem C8_expansion_and_genotype_length (catalog : list part_info)
        (Hid : Forall (fun part => p_id part <> None) catalog) :
  expand_parts_list catalog = Ok (spec_expand catalog)
  /\ (exists expanded,
        expand_parts_list catalog = Ok expanded
        /\ map p_id expanded = map Some (spec_emitted_ids catalog)
        /\ map other_keys expanded
           = flat_map (fun part => repeat (other_keys part)
                                          (Z.to_nat (quantity_of part)))
                      catalog)
  /\ (forall part id0, In part catalog -> p_id part = Some id0 ->
        expand_part part
        = Ok (map (set_id part) (spec_ids id0 (quantity_of part)))
        /\ (exists copies,
              expand_part part = Ok copies
              /\ map p_id copies = map Some (spec_ids id0 (quantity_of part))
              /\ Forall (fun copy => other_keys copy = other_keys part) copies)
        /\ len (spec_ids id0 (quantity_of part)) = Z.max 0 (quantity_of part)
        /\ (quantity_of part = 1%Z -> spec_ids id0 (quantity_of part) = [id0])
        /\ ((1 < quantity_of part)%Z ->
            spec_ids id0 (quantity_of part)
            = map (fun i => (id0 ++ "_" ++ str_of_Z i)%string)
                  (one_to (quantity_of part))))
  /\ (forall self g, parts self = spec_expand catalog ->
        List.length (genes (fst (create_individual self g)))
        = (3 * List.length (spec_expand catalog))%nat).
Proof.
  split; [now apply expand_parts_list_spec|]. split; [|split].
  - exists (spec_expand catalog). split; [now apply expand_parts_list_spec|].
    split.
    + apply spec_expand_ids, Hid.
    + apply spec_expand_other_keys, Hid.
  - intros part id0 _ Eid.
    assert (expand_part part
            = Ok (map (set_id part) (spec_ids id0 (quantity_of part)))) as Hexp.
    { rewrite (expand_part_spec part id0 Eid).
      unfold spec_expand_part. now rewrite Eid. }
    split; [exact Hexp|]. split; [|split; [|split]].
    + eexists. split; [exact Hexp|]. split.
      * apply set_id_ids.
      * apply Forall_forall. intros copy Hin.
        apply in_map_iff in Hin as (new_id & <- & _). reflexivity.
    + apply spec_ids_length.
    + now intros ->.
    + intros Hq. unfold spec_ids.
      apply Z.ltb_lt in Hq. now rewrite Hq.
  - intros self g Eparts. unfold create_individual.
    pose proof (create_genes_length self (parts self) g) as Hlen.
    destruct (create_genes self (parts self) g) as [gs g'].
    simpl in *. now rewrite <- Eparts.
Qed.

End Genotype.


(* ================================================================== *)
(** * Crossover *)

Lemma len_div3 {A : Type} (l : list A) (N : nat) :
  List.length l = (3 * N)%nat -> (len l / 3 = Z.of_nat N)%Z.
Proof.
  intros E. unfold len. rewrite E.
  replace (Z.of_nat (3 * N)) with (Z.of_nat N * 3)%Z by lia.
  apply Z.div_mul. lia.
Qed.

Lemma cross_points_spec (ind1 : individual) (N : nat) :
  (2 <= N)%nat -> List.length (genes ind1) = (3 * N)%nat ->
  cross_points ind1 = Ok (spec_cut_indices N).
Proof.
  intros HN E. unfold cross_points, randrange, spec_cut_indices.
  rewrite (len_div3 _ N E).
  destruct (1 <? Z.of_nat N)%Z eqn:E1; [|apply Z.ltb_ge in E1; lia].
  cbn [bind]. f_equal.
  replace (Z.to_nat (Z.of_nat N - 1)) with (N - 1)%nat by lia.
  rewrite <- seq_shift, !map_map. apply map_ext. intros k. lia.
Qed.

Lemma spec_cut_indices_in (N : nat) (cut : Z) :
  In cut (spec_cut_indices N) ->
  exists k, (1 <= k < N)%nat /\ cut = Z.of_nat (3 * k).
Proof.
  unfold spec_cut_indices. rewrite in_map_iff.
  intros (k & <- & Hk). apply in_seq in Hk. exists k. split; [lia|reflexivity].
Qed.

Lemma NoDup_map_injective {A B : Type} (f : A -> B) (l : list A) :
  (forall a b, f a = f b -> a = b) -> NoDup l -> NoDup (map f l).
Proof.
  intros Hf. induction 1 as [|a l Ha Hl IH]; simpl; constructor; [|exact IH].
  rewrite in_map_iff. intros (b & Hb & Hin).
  apply Hf in Hb. subst b. contradiction.
Qed.

Lemma spec_cut_indices_NoDup (N : nat) : NoDup (spec_cut_indices N).
Proof.
  unfold spec_cut_indices. apply NoDup_map_injective.
  - intros a b Hab. lia.
  - apply seq_NoDup.
Qed.

Lemma crossover_spec (ind1 ind2 : individual) (N : nat) :
  (2 <= N)%nat -> List.length (genes ind1) = (3 * N)%nat ->
  crossover ind1 ind2 = Ok (map (spec_offspring ind1 ind2) (spec_cut_indices N)).
Proof.
  intros HN E. unfold crossover.
  destruct (len (genes ind1) >? 3)%Z eqn:E3.
  - now rewrite (cross_points_spec ind1 N HN E).
  - rewrite Z.gtb_ltb in E3. apply Z.ltb_ge in E3.
    unfold len in E3. rewrite E in E3. lia.
Qed.

(** C5.  For parents of equal length 3N, N >= 2: the cut indices
    crossover can draw are 3, 6, ..., 3(N-1), each once (so a uniform
    draw of [randrange] is a uniform draw among them); each is a multiple
    of 3 between 3 and the length minus 3; every equally likely result
    swaps the gene tails from its cut index, keeps 3N genes in each
    offspring (hence the total gene count) and leaves both cached
    fitnesses invalid. *)
Theorem C5_crossover_boundary_aligned (ind1 ind2 : individual) (N : nat)
        (HN : (2 <= N)%nat)
        (H1 : List.length (genes ind1) = (3 * N)%nat)
        (H2 : List.length (genes ind2) = (3 * N)%nat) :
  cross_points ind1 = Ok (spec_cut_indices N)
  /\ NoDup (spec_cut_indices N)
  /\ (forall cut, In cut (spec_cut_indices N) <->
                  exists k, (1 <= k <= N - 1)%nat /\ cut = (3 * Z.of_nat k)%Z)
  /\ (forall cut, In cut (spec_cut_indices N) ->
        (cut mod 3 = 0 /\ 3 <= cut <= len (genes ind1) - 3)%Z)
  /\ crossover ind1 ind2 = Ok (map (spec_offspring ind1 ind2) (spec_cut_indices N))
  /\ (forall cut, In cut (spec_cut_indices N) ->
        let (c1, c2) := spec_offspring ind1 ind2 cut in
        List.length (genes c1) = (3 * N)%nat
        /\ List.length (genes c2) = (3 * N)%nat
        /\ (List.length (genes c1) + List.length (genes c2)
            = List.length (genes ind1) + List.length (genes ind2))%nat
        /\ fitness_values c1 = None /\ fitness_values c2 = None).
Proof.
  split; [now apply cross_points_spec|].
  split; [apply spec_cut_indices_NoDup|].
  split; [|split; [|split; [now apply crossover_spec|]]].
  - intros cut. split.
    + intros Hin. apply spec_cut_indices_in in Hin as (k & Hk & ->).
      exists k. split; lia.
    + intros (k & Hk & ->). unfold spec_cut_indices. apply in_map_iff.
      exists k. split; [lia|]. apply in_seq. lia.
  - intros cut Hin. apply spec_cut_indices_in in Hin as (k & Hk & ->).
    unfold len. rewrite H1. split; [|lia].
    replace (Z.of_nat (3 * k)) with (Z.of_nat k * 3)%Z by lia.
    apply Z.mod_mul. lia.
  - intros cut Hin. apply spec_cut_indices_in in Hin as (k & Hk & ->).
    unfold spec_offspring. simpl.
    rewrite !length_app, !length_firstn, !length_skipn, H1, H2.
    rewrite Nat2Z.id. repeat split; lia.
Qed.

(* ================================================================== *)
(** * Utilization and the fitness score *)

Section Fitness.
Context `{Shapely} `{Numpy}.
Variable self : NestingOptimizer.

Lemma evaluate_step_total (st : list Shape * Q) (item : layout_item) :
  snd st = area_sum (fst st) ->
  snd (evaluate_step self st item) = area_sum (fst (evaluate_step self st item)).
Proof.
  intros Hst. destruct st as [placed total].
  destruct item as [[[part x] y] rotation].
  unfold evaluate_step, evaluate_try.
  destruct (create_part_from_dict part) as [s0|e]; simpl; [|assumption].
  destruct (if negb (Qeq_bool rotation 0) then rotate s0 rotation else Ok s0)
    as [s1|e]; simpl; [|assumption].
  destruct (translate s1 x y) as [s2|e]; simpl; [|assumption].
  destruct (within_sheet self (bounds s2)); simpl; [|assumption].
  destruct (evaluate_overlaps s2 placed) as [[|]|e]; simpl; try assumption.
  unfold area_sum. rewrite fold_left_app. simpl in *.
  now rewrite Hst.
Qed.

Lemma evaluate_loop_total (layout : list layout_item) :
  snd (evaluate_loop self layout) = area_sum (fst (evaluate_loop self layout)).
Proof.
  unfold evaluate_loop.
  assert (forall st, snd st = area_sum (fst st) ->
                     snd (fold_left (evaluate_step self) layout st)
                     = area_sum (fst (fold_left (evaluate_step self) layout st)))
    as Hgen.
  { induction layout as [|item layout IH]; intros st Hst; simpl; [assumption|].
    apply IH. now apply evaluate_step_total. }
  now apply Hgen.
Qed.

Lemma area_sum_snoc (placed : list Shape) (s : Shape) :
  area_sum (placed ++ [s]) = area_sum placed + area s.
Proof. unfold area_sum. now rewrite fold_left_app. Qed.

Lemma area_sum_nonneg (placed : list Shape) :
  (forall s, 0 <= area s) -> 0 <= area_sum placed.
Proof.
  intros Harea. induction placed as [|s placed IH] using rev_ind.
  - unfold area_sum. simpl. lra.
  - rewrite area_sum_snoc. specialize (Harea s). lra.
Qed.

Lemma area_sum_zero (placed : list Shape) :
  Forall (fun s => area s == 0) placed -> area_sum placed == 0.
Proof.
  induction placed as [|s placed IH] using rev_ind; intros Hz.
  - reflexivity.
  - apply Forall_app in Hz as [Hz Hs]. inversion Hs; subst.
    rewrite area_sum_snoc. rewrite (IH Hz). lra.
Qed.

Lemma py_div_ok (a b : Q) : ~ b == 0 -> py_div a b = Ok (a / b).
Proof.
  intros Hb. unfold py_div.
  destruct (Qeq_bool b 0) eqn:E; [|reflexivity].
  apply Qeq_bool_iff in E. contradiction.
Qed.

Lemma Qgt_bool_true (a b : Q) : Qgt_bool a b = true <-> b < a.
Proof.
  unfold Qgt_bool. rewrite negb_true_iff.
  split.
  - intros E. apply Qnot_le_lt. intros Hle.
    apply Qle_bool_iff in Hle. congruence.
  - intros Hlt. destruct (Qle_bool a b) eqn:E; [|reflexivity].
    apply Qle_bool_iff in E. lra.
Qed.

Lemma Qgt_bool_false_iff (a b : Q) : Qgt_bool a b = false <-> a <= b.
Proof.
  unfold Qgt_bool. rewrite negb_false_iff. apply Qle_bool_iff.
Qed.

(** The utilization of lines 108-109 is always computed. *)
Lemma evaluate_utilization_value (total : Q) :
  evaluate_utilization self total
  = Ok (if Qgt_bool (sheet_width self * sheet_height self) 0
        then total / (sheet_width self * sheet_height self) * 100 else 0).
Proof.
  unfold evaluate_utilization.
  destruct (Qgt_bool (sheet_width self * sheet_height self) 0) eqn:E;
    [|reflexivity].
  apply Qgt_bool_true in E. rewrite py_div_ok; [reflexivity|]. lra.
Qed.

Lemma utilization_nonneg (total sheet_area : Q) :
  0 <= total -> 0 < sheet_area -> 0 <= total / sheet_area * 100.
Proof.
  intros Ht Hs.
  assert (0 <= total / sheet_area) as Hq.
  { apply Qle_shift_div_l; [assumption|]. lra. }
  lra.
Qed.

(** C2 (as amended).  Provided areas are non-negative, [evaluate_layout]
    always computes a utilization [u >= 0]; it is 0 when the sheet area
    is 0 (or negative) and when no part is accepted; and on a sheet of
    positive area [calculate_layout_stats] reports that same value. *)
Theorem C2_utilization_lower_bound (layout : list layout_item)
        (Harea : forall s : Shape, 0 <= area s) :
  exists u,
    evaluate_utilization self (snd (evaluate_loop self layout)) = Ok u
    /\ 0 <= u
    /\ (sheet_width self * sheet_height self <= 0 -> u = 0)
    /\ (fst (evaluate_loop self layout) = [] -> u == 0)
    /\ (0 < sheet_width self * sheet_height self ->
        exists stats, calculate_layout_stats self layout = Ok stats
                      /\ st_utilization stats = u).
Proof.
  rewrite evaluate_utilization_value. eexists. split; [reflexivity|].
  pose proof (evaluate_loop_total layout) as Htot.
  pose proof (area_sum_nonneg (fst (evaluate_loop self layout)) Harea) as Hnn.
  rewrite <- Htot in Hnn.
  destruct (Qgt_bool (sheet_width self * sheet_height self) 0) eqn:E.
  - apply Qgt_bool_true in E. split; [now apply utilization_nonneg|].
    split; [intros Hle; lra|]. split.
    + intros Hnil. rewrite Htot, Hnil. unfold area_sum. simpl.
      unfold Qdiv. lra.
    + intros _. unfold calculate_layout_stats.
      rewrite stats_loop_of. unfold stats_of.
      rewrite py_div_ok by lra. simpl. eexists. split; reflexivity.
  - apply Qgt_bool_false_iff in E. split; [lra|].
    split; [reflexivity|]. split; [reflexivity|]. intros Hpos. lra.
Qed.

End Fitness.

Section Score.
Context `{Shapely} `{Numpy}.
Variable self : NestingOptimizer.

Lemma decode_from_total (ps : list part_info) (i : nat) (ind : list Q) :
  (3 * (i + List.length ps) <= List.length ind)%nat ->
  exists layout, decode_from ps i ind = Ok layout
                 /\ map (fun item => fst (fst (fst item))) layout = ps.
Proof.
  revert i. induction ps as [|part ps IH]; intros i Hlen; simpl in *.
  - now exists [].
  - pose proof (length_skipn (i * 3) ind) as Hs.
    destruct (skipn (i * 3) ind) as [|x [|y [|r rest]]]; simpl in Hs; try lia.
    simpl. destruct (IH (S i)) as (layout & -> & Hparts); [lia|].
    simpl. eexists. split; [reflexivity|]. simpl. now rewrite Hparts.
Qed.

Lemma decode_individual_total (ind : list Q) :
  List.length ind = (3 * List.length (parts self))%nat ->
  exists layout, decode_individual self ind = Ok layout
                 /\ map (fun item => fst (fst (fst item))) layout = parts self.
Proof.
  intros Hlen. apply decode_from_total. simpl. lia.
Qed.

Lemma evaluate_placement_ratio_value (placed : list Shape) :
  evaluate_placement_ratio self placed
  = Ok (spec_placement_ratio (len placed) (len (parts self))).
Proof.
  unfold evaluate_placement_ratio, spec_placement_ratio.
  destruct (parts self) as [|p ps] eqn:E; [reflexivity|].
  assert (len (p :: ps) <> 0%Z) as Hne by (unfold len; simpl; lia).
  destruct (len (p :: ps) =? 0)%Z eqn:E0; [apply Z.eqb_eq in E0; contradiction|].
  apply py_div_ok. intros Hz.
  apply Hne. unfold Qeq in Hz. simpl in Hz. lia.
Qed.

Lemma evaluate_layout_value (ind : list Q) (layout : list layout_item) :
  decode_individual self ind = Ok layout ->
  evaluate_layout self ind
  = Ok (spec_score
          (if Qgt_bool (sheet_width self * sheet_height self) 0
           then snd (evaluate_loop self layout)
                / (sheet_width self * sheet_height self) * 100
           else 0)
          (spec_placement_ratio (len (fst (evaluate_loop self layout)))
                                (len (parts self)))).
Proof.
  intros Hdec. unfold evaluate_layout. rewrite Hdec. simpl.
  destruct (evaluate_loop self layout) as [placed total]. simpl.
  rewrite evaluate_utilization_value. simpl.
  now rewrite evaluate_placement_ratio_value.
Qed.

(** A sheet that holds an accepted shape of non-zero area has a positive
    area. *)
Lemma sheet_area_positive (placed : list Shape) :
  Forall (in_sheet self) placed -> Forall has_extent placed ->
  ~ area_sum placed == 0 ->
  0 < sheet_width self * sheet_height self.
Proof.
  intros Hin Hext Hne.
  destruct (Qlt_le_dec 0 (sheet_width self * sheet_height self)) as [Hpos|Hle];
    [assumption|].
  exfalso. apply Hne. apply area_sum_zero.
  rewrite Forall_forall in *. intros s Hs.
  destruct (Qeq_dec (area s) 0) as [Hz|Hnz]; [assumption|].
  exfalso. specialize (Hin s Hs). specialize (Hext s Hs Hnz).
  unfold in_sheet in Hin. destruct (bounds s) as [[[b0 b1] b2] b3].
  destruct Hin as (Hb0 & Hb1 & Hb2 & Hb3). destruct Hext as [Hx Hy].
  assert (0 < sheet_width self) by lra.
  assert (0 < sheet_height self) by lra.
  nra.
Qed.

Lemma inject_Z_div_eq (a b n : Z) :
  (0 < n)%Z -> inject_Z a / inject_Z n == inject_Z b / inject_Z n -> a = b.
Proof.
  intros Hn Heq.
  assert (~ inject_Z n == 0) as Hnz.
  { unfold Qeq. simpl. lia. }
  assert (inject_Z a == inject_Z b) as Hab.
  { setoid_replace (inject_Z a) with (inject_Z a / inject_Z n * inject_Z n)
      by (field; assumption).
    rewrite Heq. field. assumption. }
  unfold Qeq in Hab. simpl in Hab. lia.
Qed.

(** C4.  For a genotype of 3N genes, [evaluate_layout] returns
    utilization x (0.5 + 0.5 x placement_ratio), where utilization is the
    accepted area (the sum of the areas of the accepted shapes) divided
    by the sheet area, times 100 (0 on a sheet whose area is not
    positive), and placement_ratio = accepted_count / N (0 when N = 0);
    and, shapes of non-zero area having a bounding box of non-zero
    extent, two genotypes with the same non-zero accepted area and
    different accepted counts get different scores when N > 0. *)
Theorem C4_fitness_is_blended_score
        (Hext : forall s : Shape, has_extent s) :
  (forall ind, List.length ind = (3 * List.length (parts self))%nat ->
     exists layout utilization,
       decode_individual self ind = Ok layout
       /\ map (fun item => fst (fst (fst item))) layout = parts self
       /\ evaluate_utilization self (snd (evaluate_loop self layout))
          = Ok utilization
       /\ snd (evaluate_loop self layout)
          = area_sum (fst (evaluate_loop self layout))
       /\ utilization
          = (if Qgt_bool (sheet_width self * sheet_height self) 0
             then area_sum (fst (evaluate_loop self layout))
                  / (sheet_width self * sheet_height self) * 100
             else 0)
       /\ evaluate_layout self ind
          = Ok (spec_score utilization
                  (spec_placement_ratio
                     (len (fst (evaluate_loop self layout)))
                     (len (parts self)))))
  /\ (forall ind1 ind2 layout1 layout2 score1 score2,
        decode_individual self ind1 = Ok layout1 ->
        decode_individual self ind2 = Ok layout2 ->
        evaluate_layout self ind1 = Ok score1 ->
        evaluate_layout self ind2 = Ok score2 ->
        (0 < len (parts self))%Z ->
        snd (evaluate_loop self layout1) == snd (evaluate_loop self layout2) ->
        ~ snd (evaluate_loop self layout1) == 0 ->
        len (fst (evaluate_loop self layout1))
        <> len (fst (evaluate_loop self layout2)) ->
        ~ score1 == score2).
Proof.
  split.
  - intros ind Hlen.
    destruct (decode_individual_total ind Hlen) as (layout & Hdec & Hparts).
    exists layout. eexists. split; [exact Hdec|]. split; [exact Hparts|].
    split; [apply evaluate_utilization_value|].
    split; [apply evaluate_loop_total|].
    split; [now rewrite <- evaluate_loop_total|].
    now apply evaluate_layout_value.
  - intros ind1 ind2 layout1 layout2 score1 score2 Hd1 Hd2 He1 He2 HN
           Hsame Hnz Hcount Hscore.
    rewrite (evaluate_layout_value ind1 layout1 Hd1) in He1.
    rewrite (evaluate_layout_value ind2 layout2 Hd2) in He2.
    injection He1 as <-. injection He2 as <-.
    assert (0 < sheet_width self * sheet_height self) as Hsheet.
    { apply (sheet_area_positive (fst (evaluate_loop self layout1))).
      - apply (evaluate_fold_ok self layout1 ([], 0)), placement_ok_nil.
      - apply Forall_forall. intros s _. apply Hext.
      - now rewrite <- evaluate_loop_total. }
    apply Qgt_bool_true in Hsheet as Hguard. rewrite Hguard in Hscore.
    unfold spec_score, spec_placement_ratio in Hscore.
    destruct (len (parts self) =? 0)%Z eqn:E0; [apply Z.eqb_eq in E0; lia|].
    set (sheet_area := sheet_width self * sheet_height self) in *.
    set (t1 := snd (evaluate_loop self layout1)) in *.
    set (t2 := snd (evaluate_loop self layout2)) in *.
    set (r1 := inject_Z (len (fst (evaluate_loop self layout1)))
               / inject_Z (len (parts self))) in *.
    set (r2 := inject_Z (len (fst (evaluate_loop self layout2)))
               / inject_Z (len (parts self))) in *.
    assert (~ t1 / sheet_area * 100 == 0) as Hu.
    { intros Hz. apply Hnz.
      setoid_replace t1 with (t1 / sheet_area * 100 * (sheet_area / 100))
        by (field; lra).
      rewrite Hz. ring. }
    assert (t2 / sheet_area * 100 == t1 / sheet_area * 100) as Hu2.
    { now rewrite Hsame. }
    rewrite Hu2 in Hscore.
    assert (r1 == r2) as Hr.
    { assert (t1 / sheet_area * 100 * (r1 - r2) == 0) as Hprod by lra.
      apply Qmult_integral in Hprod as [Hprod|Hprod]; [contradiction|lra]. }
    apply Hcount. now apply (inject_Z_div_eq _ _ (len (parts self))).
Qed.

End Score.

(* ================================================================== *)
(** * The polygon instance satisfies the laws the theorems assume *)

Module PolyGeomFacts.
Import PolyGeom.

Lemma poly_area_nonneg (pts : polygon) : 0 <= poly_area pts.
Proof.
  unfold poly_area. pose proof (Qabs_nonneg (shoelace pts)) as Hn.
  apply Qle_shift_div_l; lra.
Qed.

Lemma grow_widens (b : bounds_t) (q : point) :
  box_within b (grow b q) /\ box_contains (grow b q) q.
Proof.
  destruct b as [[[b0 b1] b2] b3]. unfold grow, box_within, box_contains.
  pose proof (Q.le_min_l b0 (fst q)). pose proof (Q.le_min_r b0 (fst q)).
  pose proof (Q.le_min_l b1 (snd q)). pose proof (Q.le_min_r b1 (snd q)).
  pose proof (Q.le_max_l b2 (fst q)). pose proof (Q.le_max_r b2 (fst q)).
  pose proof (Q.le_max_l b3 (snd q)). pose proof (Q.le_max_r b3 (snd q)).
  tauto.
Qed.

Lemma box_within_contains (inner outer : bounds_t) (q : point) :
  box_within inner outer -> box_contains inner q -> box_contains outer q.
Proof.
  destruct inner as [[[a0 a1] a2] a3]. destruct outer as [[[b0 b1] b2] b3].
  unfold box_within, box_contains. intros (? & ? & ? & ?) (? & ? & ? & ?).
  repeat split; lra.
Qed.

Lemma box_within_trans (a b c : bounds_t) :
  box_within a b -> box_within b c -> box_within a c.
Proof.
  destruct a as [[[a0 a1] a2] a3]. destruct b as [[[b0 b1] b2] b3].
  destruct c as [[[c0 c1] c2] c3].
  unfold box_within. intros (? & ? & ? & ?) (? & ? & ? & ?).
  repeat split; lra.
Qed.

Lemma fold_grow_contains (l : list point) (b : bounds_t) :
  box_within b (fold_left grow l b)
  /\ Forall (box_contains (fold_left grow l b)) l.
Proof.
  revert b. induction l as [|q l IH]; intros b; simpl.
  - split; [|constructor]. destruct b as [[[b0 b1] b2] b3].
    unfold box_within. repeat split; lra.
  - destruct (IH (grow b q)) as [Hw Hall].
    destruct (grow_widens b q) as [Hbw Hq]. split.
    + eapply box_within_trans; eassumption.
    + constructor; [|assumption]. eapply box_within_contains; eassumption.
Qed.

Lemma poly_bounds_contains (p : point) (l : list point) :
  Forall (box_contains (poly_bounds (p :: l))) (p :: l).
Proof.
  simpl. destruct (fold_grow_contains l (fst p, snd p, fst p, snd p))
    as [Hw Hall].
  constructor; [|assumption].
  eapply box_within_contains; [exact Hw|].
  unfold box_contains. repeat split; lra.
Qed.

(** A ring whose vertices share their abscissa closes with a shoelace sum
    that telescopes. *)
Lemma ring_sum_same_x (c : Q) (first prev : point) (l : list point) :
  fst first == c -> fst prev == c -> Forall (fun q => fst q == c) l ->
  ring_sum first prev l == c * (snd first - snd prev).
Proof.
  intros Hf. revert prev. induction l as [|q l IH]; intros prev Hp Hl; simpl.
  - unfold cross. rewrite Hf, Hp. ring.
  - inversion Hl as [|q' l' Hq Hl']; subst.
    rewrite (IH q Hq Hl'). unfold cross. rewrite Hp, Hq. ring.
Qed.

Lemma ring_sum_same_y (c : Q) (first prev : point) (l : list point) :
  snd first == c -> snd prev == c -> Forall (fun q => snd q == c) l ->
  ring_sum first prev l == c * (fst prev - fst first).
Proof.
  intros Hf. revert prev. induction l as [|q l IH]; intros prev Hp Hl; simpl.
  - unfold cross. rewrite Hf, Hp. ring.
  - inversion Hl as [|q' l' Hq Hl']; subst.
    rewrite (IH q Hq Hl'). unfold cross. rewrite Hp, Hq. ring.
Qed.

Lemma area_of_zero_shoelace (pts : polygon) :
  shoelace pts == 0 -> poly_area pts == 0.
Proof.
  intros Hz. unfold poly_area. rewrite Hz. reflexivity.
Qed.

Lemma poly_has_extent `{Numpy} (s : polygon) : @has_extent shapely s.
Proof.
  unfold has_extent. simpl. intros Hnz.
  destruct s as [|p l].
  { exfalso. apply Hnz. reflexivity. }
  pose proof (poly_bounds_contains p l) as Hall.
  destruct (poly_bounds (p :: l)) as [[[b0 b1] b2] b3].
  assert (forall q, In q (p :: l) ->
            b0 <= fst q /\ fst q <= b2 /\ b1 <= snd q /\ snd q <= b3) as Hin.
  { intros q Hq. rewrite Forall_forall in Hall. exact (Hall q Hq). }
  split.
  - destruct (Qlt_le_dec b0 b2) as [Hlt|Hle]; [assumption|].
    exfalso. apply Hnz. apply area_of_zero_shoelace. simpl.
    rewrite (ring_sum_same_x b0).
    + ring.
    + destruct (Hin p (or_introl eq_refl)) as (? & ? & _). lra.
    + destruct (Hin p (or_introl eq_refl)) as (? & ? & _). lra.
    + apply Forall_forall. intros q Hq.
      destruct (Hin q (or_intror Hq)) as (? & ? & _). lra.
  - destruct (Qlt_le_dec b1 b3) as [Hlt|Hle]; [assumption|].
    exfalso. apply Hnz. apply area_of_zero_shoelace. simpl.
    rewrite (ring_sum_same_y b1).
    + ring.
    + destruct (Hin p (or_introl eq_refl)) as (_ & _ & ? & ?). lra.
    + destruct (Hin p (or_introl eq_refl)) as (_ & _ & ? & ?). lra.
    + apply Forall_forall. intros q Hq.
      destruct (Hin q (or_intror Hq)) as (_ & _ & ? & ?). lra.
Qed.

End PolyGeomFacts.

(* ================================================================== *)
(** * Concrete runs *)

Module Runs.
Import PolyGeom Inputs.
Local Open Scope string_scope.

(** C2, counterexample.  Both parts are accepted (the overlap of the
    chip with the plate is 1/1048576 <= 1e-6), and the utilization that
    fitness evaluation computes and statistics report is above 100. *)
Lemma C2_utilization_can_exceed_100 :
  exists u stats,
    evaluate_utilization full_sheet (snd (evaluate_loop full_sheet full_layout))
    = Ok u
    /\ calculate_layout_stats full_sheet full_layout = Ok stats
    /\ st_utilization stats = u
    /\ st_parts_placed stats = 2%Z
    /\ u == 100 + (1 # 104857600)
    /\ 100 < u.
Proof.
  do 2 eexists. split; [vm_compute; reflexivity|].
  split; [vm_compute; reflexivity|].
  split; [reflexivity|]. split; [reflexivity|]. split; reflexivity.
Qed.

(** On a sheet of area 0 the statistics divide by zero, where fitness
    evaluation returns a utilization of 0. *)
Example stats_on_empty_sheet_raise :
  calculate_layout_stats (optimizer 0 100 []) [] = Raise ZeroDivisionError
  /\ evaluate_utilization (optimizer 0 100 [])
       (snd (evaluate_loop (optimizer 0 100 []) [])) = Ok 0.
Proof. split; reflexivity. Qed.

(** C2, witness: the amended statement at the full sheet. *)
Lemma C2_utilization_lower_bound_witness :
  exists u,
    evaluate_utilization full_sheet (snd (evaluate_loop full_sheet full_layout))
    = Ok u
    /\ 0 <= u
    /\ (sheet_width full_sheet * sheet_height full_sheet <= 0 -> u = 0)
    /\ (fst (evaluate_loop full_sheet full_layout) = [] -> u == 0)
    /\ (0 < sheet_width full_sheet * sheet_height full_sheet ->
        exists stats, calculate_layout_stats full_sheet full_layout = Ok stats
                      /\ st_utilization stats = u).
Proof.
  exact (C2_utilization_lower_bound full_sheet full_layout
           PolyGeomFacts.poly_area_nonneg).
Defined.

(** C4, witness: on the 20 x 10 sheet the 2 x 2 square alone is accepted
    for the first genotype, the two strips for the second: the accepted
    area is 4 both times, the utilization 4 / 200 x 100 = 2, and the
    scores are 2 x (1/2 + 1/2 x 1/3) = 4/3 and 2 x (1/2 + 1/2 x 2/3) =
    5/3. *)
Lemma C4_fitness_is_blended_score_witness :
  (exists utilization,
     evaluate_utilization wide_sheet
       (snd (evaluate_loop wide_sheet square_layout)) = Ok utilization
     /\ snd (evaluate_loop wide_sheet square_layout) == 4
     /\ utilization == 2
     /\ evaluate_layout wide_sheet square_only
        = Ok (spec_score utilization (spec_placement_ratio 1 3)))
  /\ exists score1 score2,
       evaluate_layout wide_sheet square_only = Ok score1
       /\ evaluate_layout wide_sheet strips_only = Ok score2
       /\ score1 == 4 # 3 /\ score2 == 5 # 3 /\ ~ score1 == score2.
Proof.
  pose proof (@C4_fitness_is_blended_score shapely numpy wide_sheet
                (@PolyGeomFacts.poly_has_extent numpy)) as [Hscore Hdiffer].
  split.
  - destruct (Hscore square_only eq_refl)
      as (layout & utilization & Hdec & _ & Hu & _ & Hvalue & Heval).
    assert (layout = square_layout) as -> by (now injection Hdec as <-).
    exists utilization. split; [exact Hu|].
    split; [vm_compute; reflexivity|].
    split; [rewrite Hvalue; vm_compute; reflexivity|].
    exact Heval.
  - do 2 eexists. split; [vm_compute; reflexivity|].
    split; [vm_compute; reflexivity|].
    split; [reflexivity|]. split; [reflexivity|].
    apply (Hdiffer square_only strips_only square_layout strips_layout).
    + reflexivity.
    + reflexivity.
    + vm_compute; reflexivity.
    + vm_compute; reflexivity.
    + reflexivity.
    + vm_compute; reflexivity.
    + vm_compute; discriminate.
    + vm_compute; discriminate.
Defined.

(** C5, witness: two parents of three parts; the cuts are 3 and 6. *)
Lemma C5_crossover_boundary_aligned_witness :
  cross_points parent1 = Ok [3; 6]%Z
  /\ crossover parent1 parent2
     = Ok [ (mkIndividual [1; 2; 3; 14; 15; 16; 17; 18; 19] None,
             mkIndividual [11; 12; 13; 4; 5; 6; 7; 8; 9] None);
            (mkIndividual [1; 2; 3; 4; 5; 6; 17; 18; 19] None,
             mkIndividual [11; 12; 13; 14; 15; 16; 7; 8; 9] None) ].
Proof.
  pose proof (C5_crossover_boundary_aligned parent1 parent2 3
                (le_S 2 2 (le_n 2)) eq_refl eq_refl)
    as (Hcuts & _ & _ & _ & Hcross & _).
  split; [exact Hcuts|exact Hcross].
Defined.

(** C8, witness: a circle of quantity 3 and a rectangle of quantity 1
    expand to three circles c1_1, c1_2, c1_3 and the rectangle r1, and an
    individual for them has twelve genes. *)
Lemma C8_expansion_and_genotype_length_witness :
  expand_parts_list catalog
  = Ok [ mkPart (Some "c1_1") (Some "circle") (Some 3%Z) None None (Some 5) None;
         mkPart (Some "c1_2") (Some "circle") (Some 3%Z) None None (Some 5) None;
         mkPart (Some "c1_3") (Some "circle") (Some 3%Z) None None (Some 5) None;
         mkPart (Some "r1") (Some "rectangle") (Some 1%Z) (Some 100) (Some 50)
                None None ]
  /\ (exists expanded,
        expand_parts_list catalog = Ok expanded
        /\ map p_id expanded
           = [Some "c1_1"; Some "c1_2"; Some "c1_3"; Some "r1"]
        /\ map other_keys expanded
           = [ other_keys (circle "c1" 3 5); other_keys (circle "c1" 3 5);
               other_keys (circle "c1" 3 5); other_keys (rect "r1" 100 50) ])
  /\ List.length
       (genes (fst (create_individual
                      (optimizer 200 100 (spec_expand catalog)) tt)))
     = 12%nat.
Proof.
  assert (Forall (fun part => p_id part <> None) catalog) as Hid
    by (repeat constructor; discriminate).
  destruct (C8_expansion_and_genotype_length catalog Hid)
    as (Hexp & Hids & _ & Hlen).
  split; [exact Hexp|]. split; [exact Hids|].
  exact (Hlen (optimizer 200 100 (spec_expand catalog)) tt eq_refl).
Defined.

(** C7, witness: a hexagon is refused and skipped; the rectangle after it
    is placed as if the hexagon were not there. *)
Lemma C7_unsupported_kind_and_fail_soft_witness :
  create_part_from_dict hexagon
  = Raise (ValueError "Unsupported part type: hexagon")
  /\ evaluate_loop three_parts [(hexagon, 5, 5, 0); (rect "a" 2 2, 5, 5, 0)]
     = evaluate_loop three_parts [(rect "a" 2 2, 5, 5, 0)].
Proof.
  destruct C7_unsupported_kind_and_fail_soft as (Hraise & _ & Hskip).
  split.
  - exact (Hraise hexagon "Hexagon" eq_refl eq_refl).
  - exact (Hskip three_parts [] [(rect "a" 2 2, 5, 5, 0)] (hexagon, 5, 5, 0)
                 (ValueError "Unsupported part type: hexagon") eq_refl).
Defined.

(** C7, counterexample: the tag "Rectangle" is not the tag "rectangle",
    and the shape is built all the same. *)
Lemma C7_capitalised_tag_is_built :
  String.eqb "Rectangle" "rectangle" = false
  /\ create_part_from_dict
       (mkPart (Some "r1") (Some "Rectangle") None (Some 4) (Some 2) None None)
     = Ok [(4 / 2, - (2) / 2); (4 / 2, 2 / 2); (- (4) / 2, 2 / 2);
           (- (4) / 2, - (2) / 2)].
Proof. split; reflexivity. Qed.

(** C9, witness: upper-case and mixed-case tags. *)
Lemma C9_case_insensitive_dispatch_witness :
  create_part_from_dict (set_type (circle "c1" 1 5) "CIRCLE")
  = create_part_from_dict (circle "c1" 1 5)
  /\ get_part_bounds (set_type (rect "r1" 4 2) "Rectangle") = Ok (4, 2)
  /\ calculate_part_area (set_type (rect "r1" 4 2) "rEcTaNgLe") = Ok (4 * 2).
Proof.
  split; [|split].
  - exact (proj1 (proj1 (proj2 (C9_case_insensitive_dispatch
                                 (circle "c1" 1 5) "CIRCLE"))
                        "circle" eq_refl eq_refl)).
  - exact (proj1 (proj2 (proj1 (proj2 (C9_case_insensitive_dispatch
                                         (rect "r1" 4 2) "Rectangle"))
                                "rectangle" eq_refl eq_refl))).
  - exact (proj2 (proj2 (proj1 (proj2 (C9_case_insensitive_dispatch
                                         (rect "r1" 4 2) "rEcTaNgLe"))
                                "rectangle" eq_refl eq_refl))).
Defined.


(** A part that overlaps an accepted one by more than the tolerance is
    skipped: the strip dropped on the square is not placed. *)
Example overlapping_part_is_skipped :
  List.length
    (fst (evaluate_loop three_parts
            [(rect "a" 2 2, 5, 5, 0); (rect "b" 1 2, 5, 5, 0);
             (rect "c" 2 1, 2, 2, 0)])) = 2%nat
  /\ exists stats,
       calculate_layout_stats three_parts
         [(rect "a" 2 2, 5, 5, 0); (rect "b" 1 2, 5, 5, 0);
          (rect "c" 2 1, 2, 2, 0)] = Ok stats
       /\ st_parts_placed stats = 2%Z /\ st_total_parts stats = 3%Z
       /\ st_total_area stats == 6 /\ st_utilization stats == 6
       /\ st_waste_area stats == 94.
Proof.
  split; [vm_compute; reflexivity|].
  eexists. split; [vm_compute; reflexivity|].
  repeat split; reflexivity.
Qed.

(** The two scenarios of the specification. *)
Example expand_scenarios :
  expand_parts_list [rect "r1" 100 50] = Ok [rect "r1" 100 50]
  /\ (ids <- expand_parts_list [circle "c1" 3 5] ;; Ok (map p_id ids))
     = Ok [Some "c1_1"; Some "c1_2"; Some "c1_3"].
Proof. split; reflexivity. Qed.

End Runs.

(* ================================================================== *)
(** * The area of the circle and of its polygon *)

Module RealCircleFacts.
Import RealCircle.
Local Open Scope R_scope.

Lemma circle_points_vertices (radius : R) :
  circle_points radius = map (vertex radius) (seq 0 32).
Proof.
  unfold circle_points, circle_angles. rewrite map_map.
  apply map_ext. intros k. unfold vertex.
  replace (0 + INR k * ((2 * PI - 0) / 32)) with (INR k * (PI / 16))
    by Lra.lra.
  reflexivity.
Qed.

Lemma rcross_consecutive (radius : R) (k : nat) :
  rcross (vertex radius k) (vertex radius (S k))
  = radius * radius * sin (PI / 16).
Proof.
  unfold rcross, vertex. cbn [fst snd].
  assert (sin (PI / 16) = sin (INR (S k) * (PI / 16) - INR k * (PI / 16)))
    as -> by (f_equal; rewrite S_INR; Lra.lra).
  rewrite sin_minus. ring.
Qed.

Lemma rring_sum_arc (radius : R) (first : rpoint) (n j : nat) :
  rring_sum first (vertex radius j) (map (vertex radius) (seq (S j) n))
  = INR n * (radius * radius * sin (PI / 16))
    + rcross (vertex radius (j + n)) first.
Proof.
  revert j. induction n as [|n IH]; intros j.
  - simpl. rewrite Nat.add_0_r. ring.
  - cbn [seq map rring_sum]. rewrite IH, rcross_consecutive, S_INR.
    replace (S j + n)%nat with (j + S n)%nat by lia. ring.
Qed.

Lemma rcross_closing (radius : R) :
  rcross (vertex radius 31) (vertex radius 0)
  = radius * radius * sin (PI / 16).
Proof.
  unfold rcross, vertex. cbn [fst snd].
  replace (INR 0 * (PI / 16)) with 0 by (simpl; ring).
  replace (INR 31 * (PI / 16)) with (2 * PI - PI / 16)
    by (replace (INR 31) with 31 by (simpl; ring); Lra.lra).
  rewrite sin_0, cos_0, sin_minus, sin_2PI, cos_2PI. ring.
Qed.

Lemma circle_shoelace (radius : R) :
  rshoelace (circle_points radius) = 32 * (radius * radius * sin (PI / 16)).
Proof.
  rewrite circle_points_vertices.
  change (seq 0 32) with (0%nat :: seq 1 31). cbn [map rshoelace].
  rewrite (rring_sum_arc radius (vertex radius 0) 31 0).
  change (0 + 31)%nat with 31%nat. rewrite rcross_closing.
  replace (INR 31) with 31 by (simpl; ring). ring.
Qed.

Lemma sin_sixteenth_pos : 0 < sin (PI / 16).
Proof.
  pose proof PI_RGT_0. apply sin_gt_0; Lra.lra.
Qed.

Lemma sin_sixteenth_small : 16 * sin (PI / 16) < PI.
Proof.
  pose proof PI_RGT_0. pose proof (sin_lt_x (PI / 16)). Lra.lra.
Qed.

Lemma circle_polygon_area (radius : R) :
  polygon_area (circle_points radius) = 16 * radius * radius * sin (PI / 16).
Proof.
  unfold polygon_area. rewrite circle_shoelace.
  rewrite Rabs_pos_eq; [field|].
  pose proof sin_sixteenth_pos. pose proof (Rle_0_sqr radius) as Hs.
  unfold Rsqr in Hs. apply Rmult_le_pos; [Lra.lra|].
  apply Rmult_le_pos; Lra.lra.
Qed.

(** C6 (as amended).  For a circle of radius r > 0 the 32-gon that
    [create_part_from_dict] builds has area 16 r^2 sin(pi/16), and
    [calculate_part_area] returns pi r^2, which is strictly larger. *)
Theorem C6_circle_area_exceeds_polygon (radius : R) (Hr : 0 < radius) :
  polygon_area (circle_points radius) = 16 * radius * radius * sin (PI / 16)
  /\ circle_part_area radius = PI * radius * radius
  /\ polygon_area (circle_points radius) < circle_part_area radius.
Proof.
  split; [apply circle_polygon_area|]. split; [reflexivity|].
  rewrite circle_polygon_area. unfold circle_part_area.
  pose proof sin_sixteenth_small as Hs.
  assert (0 < radius * radius) as Hrr by (apply Rmult_lt_0_compat; assumption).
  replace (16 * radius * radius * sin (PI / 16))
    with (16 * sin (PI / 16) * (radius * radius)) by ring.
  replace (PI * radius * radius) with (PI * (radius * radius)) by ring.
  apply Rmult_lt_compat_r; assumption.
Qed.

(** C6, witness: radius 1. *)
Lemma C6_circle_area_exceeds_polygon_witness :
  polygon_area (circle_points 1) = 16 * 1 * 1 * sin (PI / 16)
  /\ circle_part_area 1 = PI * 1 * 1
  /\ polygon_area (circle_points 1) < circle_part_area 1.
Proof.
  apply (C6_circle_area_exceeds_polygon 1). Lra.lra.
Defined.

(** C6, counterexample: for radius 2 the closed form is not the area of
    the polygon that overlap testing uses. *)
Lemma C6_closed_form_differs_from_polygon :
  circle_part_area 2 = 4 * PI
  /\ polygon_area (circle_points 2) = 64 * sin (PI / 16)
  /\ circle_part_area 2 <> polygon_area (circle_points 2).
Proof.
  split; [unfold circle_part_area; ring|].
  split; [rewrite circle_polygon_area; ring|].
  rewrite circle_polygon_area. unfold circle_part_area.
  pose proof sin_sixteenth_small. Lra.lra.
Qed.

End RealCircleFacts.

(* ################################################################## *)
(** * Further properties of the code *)

From Stdlib Require Import Permutation.

(* ================================================================== *)
(** * Decoding a genotype *)

Section Decoding.
Context `{Shapely} `{Numpy}.
Variable self : NestingOptimizer.

Lemma decode_from_firstn (ps : list part_info) (i : nat) (ind : list Q) :
  (3 * (i + List.length ps) <= List.length ind)%nat ->
  exists layout, decode_from ps i ind = Ok layout
                 /\ layout_parts layout = ps
                 /\ layout_genes layout
                    = firstn (3 * List.length ps) (skipn (i * 3) ind).
Proof.
  revert i. induction ps as [|part ps IH]; intros i Hlen.
  - exists []. simpl. repeat split.
  - simpl in Hlen. cbn [decode_from].
    pose proof (length_skipn (i * 3) ind) as Hs.
    destruct (IH (S i)) as (layout & Hdec & Hparts & Hgenes); [lia|].
    assert (skipn (S i * 3) ind = skipn 3 (skipn (i * 3) ind)) as Hskip.
    { rewrite skipn_skipn. f_equal; lia. }
    rewrite Hskip in Hgenes.
    destruct (skipn (i * 3) ind) as [|x [|y [|r rest]]]; simpl in Hs; try lia.
    cbn [firstn]. rewrite Hdec. cbn [bind].
    eexists. split; [reflexivity|]. split.
    + simpl. now rewrite Hparts.
    + cbn [layout_genes flat_map app]. fold (layout_genes layout).
      rewrite Hgenes. cbn [skipn].
      replace (3 * List.length (part :: ps))%nat
        with (S (S (S (3 * List.length ps)))) by (simpl; lia).
      reflexivity.
Qed.

Lemma decode_from_short (ps : list part_info) (i : nat) (ind : list Q) :
  (3 * i <= List.length ind < 3 * (i + List.length ps))%nat ->
  decode_from ps i ind
  = Raise (ValueError "not enough values to unpack (expected 3)").
Proof.
  revert i. induction ps as [|part ps IH]; intros i Hlen.
  - simpl in Hlen. lia.
  - cbn [decode_from].
    pose proof (length_skipn (i * 3) ind) as Hs.
    destruct (skipn (i * 3) ind) as [|x [|y [|r rest]]] eqn:E;
      cbn [firstn]; try reflexivity.
    rewrite IH; [reflexivity|]. simpl in Hs, Hlen. lia.
Qed.

Lemma layout_genes_length (layout : list layout_item) :
  List.length (layout_genes layout) = (3 * List.length layout)%nat.
Proof.
  induction layout as [|[[[p x] y] r] layout IH]; [reflexivity|].
  change (layout_genes ((p, x, y, r) :: layout))
    with (x :: y :: r :: layout_genes layout).
  cbn [List.length]. rewrite IH. simpl. lia.
Qed.

Lemma layout_parts_length (layout : list layout_item) :
  List.length (layout_parts layout) = List.length layout.
Proof. unfold layout_parts. apply length_map. Qed.

Lemma decode_from_encode (layout : list layout_item) (i : nat) (ind : list Q) :
  skipn (i * 3) ind = layout_genes layout ->
  decode_from (layout_parts layout) i ind = Ok layout.
Proof.
  revert i. induction layout as [|[[[p x] y] r] layout IH]; intros i Hs.
  - reflexivity.
  - cbn [layout_parts map fst decode_from]. fold (layout_parts layout).
    rewrite Hs. cbn [layout_genes flat_map app firstn].
    rewrite (IH (S i)); [reflexivity|].
    replace (S i * 3)%nat with (3 + i * 3)%nat by lia.
    rewrite <- skipn_skipn, Hs. reflexivity.
Qed.

(** X1.  Decoding inverts encoding: the genes of a layout over the
    optimizer's parts decode to that layout. *)
Theorem X1_decode_of_encoded_layout (layout : list layout_item)
        (Hparts : layout_parts layout = parts self) :
  decode_individual self (layout_genes layout) = Ok layout.
Proof.
  unfold decode_individual. rewrite <- Hparts.
  apply decode_from_encode. reflexivity.
Qed.

(** X2.  A genotype of at least 3N genes decodes to N entries that pair
    the parts, in order, with the first 3N genes; genes beyond 3N are
    ignored, and a genotype of exactly 3N genes is recovered from its
    layout. *)
Theorem X2_decode_reads_first_3N_genes (ind : list Q)
        (Hlen : (3 * List.length (parts self) <= List.length ind)%nat) :
  exists layout,
    decode_individual self ind = Ok layout
    /\ layout_parts layout = parts self
    /\ List.length layout = List.length (parts self)
    /\ layout_genes layout = firstn (3 * List.length (parts self)) ind
    /\ (List.length ind = (3 * List.length (parts self))%nat ->
        layout_genes layout = ind).
Proof.
  destruct (decode_from_firstn (parts self) 0 ind)
    as (layout & Hdec & Hparts & Hgenes); [simpl; lia|].
  exists layout. split; [exact Hdec|]. split; [exact Hparts|].
  split; [now rewrite <- layout_parts_length, Hparts|].
  split; [exact Hgenes|].
  intros Heq. rewrite Hgenes. change (skipn (0 * 3) ind) with ind.
  rewrite <- Heq. apply firstn_all.
Qed.

(** X3.  A genotype of fewer than 3N genes makes [decode_individual]
    raise [ValueError], and [evaluate_layout] raises it too: the
    fail-soft [try] of the loop does not cover decoding. *)
Theorem X3_short_genotype_raises (ind : list Q)
        (Hlen : (List.length ind < 3 * List.length (parts self))%nat) :
  decode_individual self ind
  = Raise (ValueError "not enough values to unpack (expected 3)")
  /\ evaluate_layout self ind
     = Raise (ValueError "not enough values to unpack (expected 3)").
Proof.
  assert (decode_individual self ind
          = Raise (ValueError "not enough values to unpack (expected 3)"))
    as Hdec by (apply decode_from_short; simpl; lia).
  split; [exact Hdec|].
  unfold evaluate_layout. now rewrite Hdec.
Qed.

End Decoding.

(* ================================================================== *)
(** * First-fit acceptance, score bounds and the statistics record *)

Section Greedy.
Context `{Shapely} `{Numpy}.
Variable self : NestingOptimizer.

Lemma evaluate_step_cases (st : list Shape * Q) (item : layout_item) :
  evaluate_step self st item = st
  \/ exists s, evaluate_step self st item = (fst st ++ [s], snd st + area s).
Proof.
  destruct st as [placed total]. destruct item as [[[part x] y] rotation].
  unfold evaluate_step, evaluate_try.
  destruct (create_part_from_dict part) as [s0|e]; simpl; [|now left].
  destruct (if negb (Qeq_bool rotation 0) then rotate s0 rotation else Ok s0)
    as [s1|e]; simpl; [|now left].
  destruct (translate s1 x y) as [s2|e]; simpl; [|now left].
  destruct (within_sheet self (bounds s2)); simpl; [|now left].
  destruct (evaluate_overlaps s2 placed) as [[|]|e]; simpl; try now left.
  right. now exists s2.
Qed.

Lemma evaluate_fold_extends (layout : list layout_item) (st : list Shape * Q) :
  exists more,
    fst (fold_left (evaluate_step self) layout st) = fst st ++ more
    /\ (List.length more <= List.length layout)%nat
    /\ snd (fold_left (evaluate_step self) layout st)
       = fold_left (fun total s => total + area s) more (snd st).
Proof.
  revert st. induction layout as [|item layout IH]; intros st.
  - exists []. simpl. rewrite app_nil_r. repeat split. lia.
  - cbn [fold_left].
    destruct (IH (evaluate_step self st item)) as (more & Hfst & Hlen & Hsnd).
    destruct (evaluate_step_cases st item) as [E|[s E]]; rewrite E in *.
    + exists more. repeat split; simpl; try assumption. lia.
    + exists (s :: more). cbn [fst snd] in *. repeat split.
      * rewrite Hfst, <- app_assoc. reflexivity.
      * simpl. lia.
      * exact Hsnd.
Qed.

Lemma fold_area_grows (more : list Shape) (total : Q) :
  (forall s : Shape, 0 <= area s) ->
  total <= fold_left (fun total s => total + area s) more total.
Proof.
  intros Harea. revert total. induction more as [|s more IH]; intros total.
  - simpl. lra.
  - simpl. specialize (IH (total + area s)). specialize (Harea s). lra.
Qed.

(** X4.  Acceptance is first-come and never revoked: evaluating a layout
    extended by further entries keeps the shapes accepted so far as a
    prefix of the accepted list, adds at most one shape per further
    entry, and (areas being non-negative) does not lower the accepted
    area. *)
Theorem X4_acceptance_is_never_revoked (l1 l2 : list layout_item)
        (Harea : forall s : Shape, 0 <= area s) :
  exists more,
    fst (evaluate_loop self (l1 ++ l2)) = fst (evaluate_loop self l1) ++ more
    /\ (List.length more <= List.length l2)%nat
    /\ snd (evaluate_loop self l1) <= snd (evaluate_loop self (l1 ++ l2)).
Proof.
  unfold evaluate_loop. rewrite fold_left_app.
  destruct (evaluate_fold_extends l2 (fold_left (evaluate_step self) l1 ([], 0)))
    as (more & Hfst & Hlen & Hsnd).
  exists more. split; [exact Hfst|]. split; [exact Hlen|].
  rewrite Hsnd. now apply fold_area_grows.
Qed.

Lemma evaluate_loop_count (layout : list layout_item) :
  (List.length (fst (evaluate_loop self layout)) <= List.length layout)%nat.
Proof.
  destruct (evaluate_fold_extends layout ([], 0)) as (more & Hfst & Hlen & _).
  unfold evaluate_loop. rewrite Hfst. simpl. exact Hlen.
Qed.

Lemma placement_ratio_unit (c N : Z) :
  (0 <= c <= N)%Z -> 0 <= spec_placement_ratio c N <= 1.
Proof.
  intros Hc. unfold spec_placement_ratio.
  destruct (N =? 0)%Z eqn:E0; [lra|].
  apply Z.eqb_neq in E0.
  assert (0 < inject_Z N) as HN.
  { unfold Qlt. simpl. lia. }
  split.
  - apply Qle_shift_div_l; [exact HN|].
    rewrite Qmult_0_l. unfold Qle. simpl. lia.
  - apply Qle_shift_div_r; [exact HN|].
    rewrite Qmult_1_l. unfold Qle. simpl. lia.
Qed.

Lemma evaluate_utilization_nonneg (layout : list layout_item) :
  (forall s : Shape, 0 <= area s) ->
  exists u, evaluate_utilization self (snd (evaluate_loop self layout)) = Ok u
            /\ 0 <= u.
Proof.
  intros Harea. rewrite evaluate_utilization_value. eexists.
  split; [reflexivity|].
  pose proof (area_sum_nonneg (fst (evaluate_loop self layout)) Harea) as Hnn.
  rewrite <- evaluate_loop_total in Hnn.
  destruct (Qgt_bool (sheet_width self * sheet_height self) 0) eqn:E; [|lra].
  apply Qgt_bool_true in E. now apply utilization_nonneg.
Qed.

(** X5.  For a genotype of 3N genes (areas being non-negative) the score
    lies between half the utilization and the utilization: the penalty
    for unplaced parts never removes more than half, and the score never
    exceeds the utilization. *)
Theorem X5_score_between_half_and_full_utilization (ind : list Q)
        (Harea : forall s : Shape, 0 <= area s)
        (Hlen : List.length ind = (3 * List.length (parts self))%nat) :
  exists layout utilization score,
    decode_individual self ind = Ok layout
    /\ evaluate_utilization self (snd (evaluate_loop self layout))
       = Ok utilization
    /\ evaluate_layout self ind = Ok score
    /\ 0 <= utilization / 2 /\ utilization / 2 <= score /\ score <= utilization.
Proof.
  destruct (decode_individual_total self ind Hlen) as (layout & Hdec & Hparts).
  destruct (evaluate_utilization_nonneg layout Harea) as (u & Hu & Hu0).
  exists layout, u. eexists. split; [exact Hdec|]. split; [exact Hu|].
  rewrite (evaluate_layout_value self ind layout Hdec).
  rewrite evaluate_utilization_value in Hu. injection Hu as Hu.
  rewrite Hu. split; [reflexivity|].
  assert (0 <= spec_placement_ratio (len (fst (evaluate_loop self layout)))
                                    (len (parts self)) <= 1) as Hr.
  { apply placement_ratio_unit. unfold len.
    pose proof (evaluate_loop_count layout) as Hc.
    assert (List.length layout = List.length (parts self)) as Hl.
    { rewrite <- Hparts. symmetry. apply length_map. }
    lia. }
  unfold spec_score.
  set (r := spec_placement_ratio _ _) in *.
  split; [|split].
  - apply Qle_shift_div_l; lra.
  - assert (u / 2 == u * (1 # 2)) as -> by (field).
    nra.
  - nra.
Qed.

End Greedy.

Section StatsRecord.
Context `{Shapely} `{Numpy}.
Variable self : NestingOptimizer.

Lemma py_div_zero (a b : Q) : b == 0 -> py_div a b = Raise ZeroDivisionError.
Proof.
  intros Hb. unfold py_div. apply Qeq_bool_iff in Hb. now rewrite Hb.
Qed.

(** X6.  [calculate_layout_stats] raises [ZeroDivisionError] exactly on a
    sheet of area 0, whatever the layout; otherwise it returns a record
    whose [sheet_area] is sheet_width * sheet_height and [total_parts]
    len(self.parts), whose [total_area] and [parts_placed] are the
    accepted area and the accepted count of the fitness loop on the same
    layout, whose [utilization] and [waste_area] are computed from those
    fields as total_area / sheet_area * 100 and sheet_area - total_area,
    where between 0 and len(layout) parts are placed, and for a layout
    over the optimizer's parts the placed count is at most
    [total_parts]. *)
Theorem X6_stats_record_is_consistent (layout : list layout_item) :
  (sheet_width self * sheet_height self == 0 ->
     calculate_layout_stats self layout = Raise ZeroDivisionError)
  /\ (~ sheet_width self * sheet_height self == 0 ->
      exists stats,
        calculate_layout_stats self layout = Ok stats
        /\ st_sheet_area stats = sheet_width self * sheet_height self
        /\ st_total_parts stats = len (parts self)
        /\ st_total_area stats = snd (evaluate_loop self layout)
        /\ st_parts_placed stats = len (fst (evaluate_loop self layout))
        /\ st_utilization stats
           = st_total_area stats / st_sheet_area stats * 100
        /\ st_waste_area stats = st_sheet_area stats - st_total_area stats
        /\ (0 <= st_parts_placed stats <= len layout)%Z
        /\ (layout_parts layout = parts self ->
            (st_parts_placed stats <= st_total_parts stats)%Z)).
Proof.
  unfold calculate_layout_stats. rewrite stats_loop_of. unfold stats_of.
  split.
  - intros Hz. now rewrite (py_div_zero _ _ Hz).
  - intros Hnz. rewrite (py_div_ok _ _ Hnz). cbn [bind].
    eexists. split; [reflexivity|]. cbn.
    split; [reflexivity|]. split; [reflexivity|].
    split; [reflexivity|]. split; [reflexivity|].
    split; [reflexivity|]. split; [reflexivity|].
    pose proof (evaluate_loop_count self layout) as Hc.
    split; [unfold len; lia|].
    intros Hparts. unfold len. rewrite <- Hparts, layout_parts_length. lia.
Qed.

End StatsRecord.

(* ================================================================== *)
(** * Crossover on arbitrary parents *)

Lemma swap_tails_genes (cut : Z) (ind1 ind2 : individual) :
  Permutation
    (genes (fst (swap_tails cut ind1 ind2)) ++ genes (snd (swap_tails cut ind1 ind2)))
    (genes ind1 ++ genes ind2).
Proof.
  unfold swap_tails. cbn [fst snd genes].
  set (n := Z.to_nat cut).
  rewrite <- (firstn_skipn n (genes ind1)) at 3.
  rewrite <- (firstn_skipn n (genes ind2)) at 3.
  rewrite <- !app_assoc. apply Permutation_app_head.
  etransitivity; [apply Permutation_app_comm|].
  rewrite (app_assoc (skipn n (genes ind1))).
  apply Permutation_app_tail, Permutation_app_comm.
Qed.

Lemma swap_tails_total_length (cut : Z) (ind1 ind2 : individual) :
  (List.length (genes (fst (swap_tails cut ind1 ind2)))
   + List.length (genes (snd (swap_tails cut ind1 ind2)))
   = List.length (genes ind1) + List.length (genes ind2))%nat.
Proof.
  rewrite <- !length_app. apply Permutation_length, swap_tails_genes.
Qed.

(** X7.  Whatever the two parents (equal lengths or not), every result
    of [crossover] holds exactly the genes of the parents, redistributed:
    the genes of the two offspring are a permutation of the genes of the
    two parents, so their total number is conserved; and both offspring
    have their cached fitness invalidated. *)
Theorem X7_crossover_conserves_genes (ind1 ind2 : individual)
        (outs : list (individual * individual)) (c1 c2 : individual)
        (Hcross : crossover ind1 ind2 = Ok outs)
        (Hin : In (c1, c2) outs) :
  Permutation (genes c1 ++ genes c2) (genes ind1 ++ genes ind2)
  /\ (List.length (genes c1) + List.length (genes c2)
      = List.length (genes ind1) + List.length (genes ind2))%nat
  /\ fitness_values c1 = None /\ fitness_values c2 = None.
Proof.
  assert (Permutation (genes c1 ++ genes c2) (genes ind1 ++ genes ind2)
          /\ fitness_values c1 = None /\ fitness_values c2 = None) as Hmain.
  { unfold crossover in Hcross.
    destruct (len (genes ind1) >? 3)%Z.
    - destruct (cross_points ind1) as [cps|e]; [|discriminate].
      cbn [bind] in Hcross. injection Hcross as <-.
      apply in_map_iff in Hin as (cut & Hpair & _).
      pose proof (swap_tails_genes cut ind1 ind2) as Hperm.
      unfold swap_tails in Hpair, Hperm. cbn [fst snd] in Hperm.
      injection Hpair as <- <-. repeat split; exact Hperm.
    - injection Hcross as <-. destruct Hin as [Hpair|[]].
      injection Hpair as <- <-. repeat split; reflexivity. }
  destruct Hmain as (Hperm & Hf1 & Hf2).
  split; [exact Hperm|]. split; [|now split].
  rewrite <- !length_app. now apply Permutation_length.
Qed.

(** X8.  The edge cases of [crossover]: with at most 3 genes in the
    first parent the genes are left as they are and only the cached
    fitnesses are invalidated; with 4 or 5 genes [randrange(1, 1)] is
    asked for an empty range and [ValueError] is raised; from 6 genes on
    crossover returns, with len(ind1) // 3 - 1 equally likely results. *)
Theorem X8_crossover_edge_cases (ind1 ind2 : individual) :
  ((List.length (genes ind1) <= 3)%nat ->
     crossover ind1 ind2 = Ok [(invalidate ind1, invalidate ind2)])
  /\ ((4 <= List.length (genes ind1) <= 5)%nat ->
      crossover ind1 ind2
      = Raise (ValueError "empty range for randrange()"))
  /\ ((6 <= List.length (genes ind1))%nat ->
      exists outs, crossover ind1 ind2 = Ok outs
                   /\ List.length outs
                      = (List.length (genes ind1) / 3 - 1)%nat).
Proof.
  unfold crossover, cross_points, randrange, len.
  split; [|split]; intros Hlen.
  - destruct (Z.of_nat (List.length (genes ind1)) >? 3)%Z eqn:E; [|reflexivity].
    apply Z.gtb_lt in E. lia.
  - destruct (Z.of_nat (List.length (genes ind1)) >? 3)%Z eqn:E.
    + assert (Z.of_nat (List.length (genes ind1)) / 3 = 1)%Z as ->.
      { symmetry. apply (Z.div_unique _ 3 1
                           (Z.of_nat (List.length (genes ind1)) - 3)); lia. }
      reflexivity.
    + rewrite Z.gtb_ltb in E. apply Z.ltb_ge in E. lia.
  - destruct (Z.of_nat (List.length (genes ind1)) >? 3)%Z eqn:E.
    + assert (2 <= Z.of_nat (List.length (genes ind1)) / 3)%Z as Hq.
      { apply Z.div_le_lower_bound; lia. }
      destruct (1 <? Z.of_nat (List.length (genes ind1)) / 3)%Z eqn:E1;
        [|apply Z.ltb_ge in E1; lia].
      cbn [bind]. eexists. split; [reflexivity|].
      rewrite !length_map, length_seq.
      rewrite <- (Nat2Z.id (List.length (genes ind1) / 3)).
      rewrite Nat2Z.inj_div. change (Z.of_nat 3) with 3%Z. lia.
    + rewrite Z.gtb_ltb in E. apply Z.ltb_ge in E. lia.
Qed.

(** X9.  Crossing twice at the same cut undoes the exchange: for a cut
    within both parents, swapping the tails of the offspring at that cut
    gives back the genes of the parents. *)
Theorem X9_swap_tails_is_an_involution (cut : Z) (ind1 ind2 : individual)
        (H1 : (Z.to_nat cut <= List.length (genes ind1))%nat)
        (H2 : (Z.to_nat cut <= List.length (genes ind2))%nat) :
  let (c1, c2) := swap_tails cut ind1 ind2 in
  let (d1, d2) := swap_tails cut c1 c2 in
  genes d1 = genes ind1 /\ genes d2 = genes ind2.
Proof.
  unfold swap_tails. cbn [genes].
  set (n := Z.to_nat cut) in *.
  assert (forall a b : list Q, (n <= List.length a)%nat ->
            firstn n (firstn n a ++ b) = firstn n a
            /\ skipn n (firstn n a ++ b) = b) as Hcut.
  { intros a b Ha.
    assert (List.length (firstn n a) = n) as Hn
        by (rewrite length_firstn; lia).
    split.
    - rewrite firstn_app, Hn, Nat.sub_diag, firstn_O, app_nil_r.
      rewrite firstn_firstn. f_equal. lia.
    - rewrite skipn_app, Hn, Nat.sub_diag. cbn [skipn].
      rewrite <- Hn at 1. now rewrite skipn_all. }
  destruct (Hcut (genes ind1) (skipn n (genes ind2)) H1) as [F1 S1].
  destruct (Hcut (genes ind2) (skipn n (genes ind1)) H2) as [F2 S2].
  rewrite F1, S1, F2, S2. split; apply firstn_skipn.
Qed.

(* ================================================================== *)
(** * Catalog expansion: errors, kept fields, distinct ids *)

From Stdlib Require Import DecimalZ DecimalPos.

Lemma for_each_Forall2 {A B : Type} (body : A -> result B) (l : list A)
      (bs : list B) :
  for_each body l = Ok bs -> Forall2 (fun a b => body a = Ok b) l bs.
Proof.
  revert bs. induction l as [|a l IH]; intros bs E; simpl in E.
  - injection E as <-. constructor.
  - destruct (body a) as [b|e] eqn:Eb; [|discriminate]. cbn [bind] in E.
    destruct (for_each body l) as [bs'|e]; [|discriminate]. cbn [bind] in E.
    injection E as <-. constructor; [exact Eb|]. now apply IH.
Qed.

Lemma expand_part_copies (part : part_info) (copies : list part_info) :
  expand_part part = Ok copies ->
  List.length copies = Z.to_nat (quantity_of part)
  /\ Forall (fun copy => exists new_id, copy = set_id part new_id) copies.
Proof.
  intros E. unfold expand_part in E. fold (quantity_of part) in E.
  apply for_each_Forall2 in E. split.
  - apply Forall2_length in E. rewrite <- E. unfold range.
    now rewrite length_map, length_seq.
  - induction E as [|i copy l copies Hi _ IH]; constructor; [|exact IH].
    destruct (if (1 <? quantity_of part)%Z
              then id0 <- subscript "id" (p_id part) ;;
                   Ok (id0 ++ "_" ++ str_of_Z (i + 1))%string
              else subscript "id" (p_id part)) as [new_id|e];
      [|discriminate].
    cbn [bind] in Hi. injection Hi as <-. now exists new_id.
Qed.

Lemma expand_part_missing_id (part : part_info) :
  p_id part = None -> (1 <= quantity_of part)%Z ->
  expand_part part = Raise (KeyError "id").
Proof.
  intros Eid Hq. unfold expand_part. fold (quantity_of part). unfold range.
  destruct (Z.to_nat (quantity_of part)) as [|n] eqn:En; [lia|].
  cbn [seq map for_each]. rewrite Eid.
  now destruct (1 <? quantity_of part)%Z.
Qed.

Lemma expand_part_error (part : part_info) (e : exn) :
  expand_part part = Raise e -> e = KeyError "id".
Proof.
  unfold expand_part. fold (quantity_of part).
  generalize (range (quantity_of part)). intros l.
  induction l as [|i l IH]; simpl; [discriminate|].
  destruct (p_id part) as [id0|]; simpl.
  - destruct (1 <? quantity_of part)%Z; simpl;
      (destruct (for_each _ l) as [bs|e']; simpl; [discriminate|]);
      intros [= <-]; now apply IH.
  - destruct (1 <? quantity_of part)%Z; simpl; now intros [= <-].
Qed.

(** X10.  Expansion changes nothing but the id: every expanded part is a
    catalog entry of positive quantity with its id replaced, so type,
    dimensions and even the [quantity] field are those of the entry; and
    the expanded parts number the sum of the positive quantities. *)
Theorem X10_expansion_keeps_every_other_field (catalog expanded : list part_info)
        (Hexp : expand_parts_list catalog = Ok expanded) :
  Forall (fun copy =>
            exists part new_id,
              In part catalog /\ (1 <= quantity_of part)%Z
              /\ copy = set_id part new_id
              /\ p_type copy = p_type part
              /\ p_quantity copy = p_quantity part
              /\ p_width copy = p_width part /\ p_height copy = p_height part
              /\ p_radius copy = p_radius part /\ p_base copy = p_base part)
         expanded
  /\ List.length expanded
     = fold_right (fun part n => (Z.to_nat (quantity_of part) + n)%nat)
                  0%nat catalog.
Proof.
  revert expanded Hexp. induction catalog as [|part catalog IH];
    intros expanded Hexp; simpl in Hexp.
  - injection Hexp as <-. split; [constructor|reflexivity].
  - destruct (expand_part part) as [copies|e] eqn:Ep; [|discriminate].
    cbn [bind] in Hexp.
    destruct (expand_parts_list catalog) as [more|e]; [|discriminate].
    cbn [bind] in Hexp. injection Hexp as <-.
    destruct (expand_part_copies part copies Ep) as [Hlen Hcopies].
    destruct (IH more eq_refl) as [Hmore Hcount]. split.
    + apply Forall_app. split.
      * rewrite Forall_forall in *. intros copy Hin.
        destruct (Hcopies copy Hin) as [new_id ->].
        exists part, new_id. split; [now left|]. split.
        { destruct copies; [contradiction|]. simpl in Hlen. lia. }
        repeat split.
      * rewrite Forall_forall in *. intros copy Hin.
        destruct (Hmore copy Hin) as (p & new_id & Hp & Hrest).
        exists p, new_id. split; [now right|exact Hrest].
    + rewrite length_app, Hlen, Hcount. reflexivity.
Qed.

Lemma expand_parts_list_error (catalog : list part_info) (e : exn) :
  expand_parts_list catalog = Raise e -> e = KeyError "id".
Proof.
  revert e. induction catalog as [|part catalog IH]; intros e E; simpl in E;
    [discriminate|].
  destruct (expand_part part) as [copies|e'] eqn:Ep.
  - cbn [bind] in E.
    destruct (expand_parts_list catalog) as [more|e'']; [discriminate|].
    cbn [bind] in E. injection E as <-. now apply IH.
  - cbn [bind] in E. injection E as <-. now apply (expand_part_error part).
Qed.

(** X11.  On a catalog of the data model (every entry a dict whose
    [quantity], when present, is an integer and whose [id], when present,
    is a string, as [part_info] has them) the only error of expansion is
    [KeyError] on [id]: it is raised when some entry of positive quantity
    (a missing quantity counts as 1) has no id, and expansion succeeds
    when every entry has an id or a quantity that is not positive. *)
Theorem X11_expansion_fails_only_on_a_missing_id (catalog : list part_info) :
  (Exists (fun part => p_id part = None /\ (1 <= quantity_of part)%Z) catalog ->
     expand_parts_list catalog = Raise (KeyError "id"))
  /\ (Forall (fun part => p_id part <> None \/ (quantity_of part <= 0)%Z) catalog ->
      exists expanded, expand_parts_list catalog = Ok expanded)
  /\ (forall e, expand_parts_list catalog = Raise e -> e = KeyError "id").
Proof.
  split; [|split; [|apply expand_parts_list_error]].
  - intros Hbad. induction Hbad as [part catalog [Eid Hq]|part catalog Hbad IH];
      simpl.
    + now rewrite (expand_part_missing_id part Eid Hq).
    + destruct (expand_part part) as [copies|e] eqn:Ep; cbn [bind].
      * now rewrite IH.
      * f_equal. now apply (expand_part_error part).
  - intros Hgood. induction Hgood as [|part catalog Hp Hgood IH]; simpl.
    + now exists [].
    + destruct IH as [more ->].
      destruct Hp as [Hid|Hq].
      * destruct (p_id part) as [id0|] eqn:Eid; [|contradiction].
        rewrite (expand_part_spec part id0 Eid). cbn [bind]. eexists. reflexivity.
      * rewrite (expand_part_nonpos part Hq). cbn [bind]. eexists. reflexivity.
Qed.

Lemma str_of_Z_injective (a b : Z) :
  (0 < a)%Z -> (0 < b)%Z -> str_of_Z a = str_of_Z b -> a = b.
Proof.
  intros Ha Hb E. unfold str_of_Z in E.
  apply (f_equal NilZero.int_of_string) in E.
  destruct a as [|p|p]; try lia. destruct b as [|q|q]; try lia.
  cbn [Z.to_int] in E.
  rewrite !NilZero.isi in E;
    try (intros [= Hn]; now apply Unsigned.to_uint_nonnil in Hn);
    try discriminate.
  injection E as E. apply Unsigned.to_uint_inj in E. now subst.
Qed.

Lemma append_injective (p a b : string) :
  (p ++ a)%string = (p ++ b)%string -> a = b.
Proof.
  induction p as [|c p IH]; simpl; [trivial|].
  intros [= E]. now apply IH.
Qed.

Lemma NoDup_map_injective_on {A B : Type} (f : A -> B) (l : list A) :
  (forall a b, In a l -> In b l -> f a = f b -> a = b) ->
  NoDup l -> NoDup (map f l).
Proof.
  intros Hf Hl. induction Hl as [|a l Ha Hl IH]; simpl; constructor.
  - rewrite in_map_iff. intros (b & Hb & Hin).
    assert (b = a) as -> by (apply Hf; simpl; auto).
    contradiction.
  - apply IH. intros x y Hx Hy. apply Hf; simpl; auto.
Qed.

Lemma one_to_positive (q i : Z) : In i (one_to q) -> (0 < i)%Z.
Proof.
  unfold one_to. rewrite in_map_iff. intros (k & <- & Hk).
  apply in_seq in Hk. lia.
Qed.

Lemma one_to_NoDup (q : Z) : NoDup (one_to q).
Proof.
  unfold one_to. apply NoDup_map_injective; [|apply seq_NoDup].
  intros a b. lia.
Qed.

Lemma spec_ids_NoDup (id0 : string) (q : Z) : NoDup (spec_ids id0 q).
Proof.
  unfold spec_ids. destruct (1 <? q)%Z eqn:E.
  - apply NoDup_map_injective_on; [|apply one_to_NoDup].
    intros a b Ha Hb Hab.
    apply one_to_positive in Ha, Hb.
    apply append_injective in Hab.
    apply (append_injective "_") in Hab.
    now apply str_of_Z_injective.
  - apply Z.ltb_ge in E.
    destruct (Z.to_nat q) as [|[|n]] eqn:En; simpl; try lia.
    + constructor.
    + constructor; [intros []|constructor].
Qed.

(** X12.  The copies of one catalog entry carry pairwise distinct ids:
    the suffixes [_1], ..., [_quantity] never collide. *)
Theorem X12_copies_of_an_entry_have_distinct_ids (part : part_info)
        (copies : list part_info)
        (Hexp : expand_part part = Ok copies) :
  NoDup (map p_id copies)
  /\ List.length copies = Z.to_nat (quantity_of part).
Proof.
  split; [|now apply expand_part_copies].
  destruct (p_id part) as [id0|] eqn:Eid.
  - rewrite (expand_part_spec part id0 Eid) in Hexp. injection Hexp as <-.
    unfold spec_expand_part. rewrite Eid. rewrite map_map. cbn [set_id p_id].
    apply NoDup_map_injective; [|apply spec_ids_NoDup].
    now intros a b [= ->].
  - destruct (Z_le_gt_dec (quantity_of part) 0) as [Hq|Hq].
    + rewrite (expand_part_nonpos part Hq) in Hexp. injection Hexp as <-.
      constructor.
    + rewrite (expand_part_missing_id part Eid) in Hexp; [discriminate|lia].
Qed.

(* ================================================================== *)
(** * Orientation helpers of geometry_utils.py *)

Section OrientationFacts.
Context `{Numpy}.

Lemma fits_iff (w h sheet_w sheet_h : Q) :
  Qle_bool w sheet_w && Qle_bool h sheet_h = true
  <-> w <= sheet_w /\ h <= sheet_h.
Proof. now rewrite andb_true_iff, !Qle_bool_iff. Qed.

(** X13.  For a rectangle, [optimize_part_orientation] always returns:
    [None] exactly when the part fits in neither orientation; an angle it
    returns is 0 with the part fitting upright or pi/2 with the part
    fitting rotated; when only one orientation fits the angle is that
    orientation's; and when both fit the part is kept upright exactly
    when waste1 = (sheet_w - width) * (sheet_h - height) is at most
    waste2 = (sheet_w - height) * (sheet_h - width), as the code computes
    them, a tie keeping it upright, so that a square is never turned. *)
Theorem X13_rectangle_orientation (part : part_info) (t : string)
        (w h sheet_w sheet_h : Q)
        (Ht : p_type part = Some t) (Hk : lower t = "rectangle"%string)
        (Hw : p_width part = Some w) (Hh : p_height part = Some h) :
  (exists orientation,
      optimize_part_orientation part sheet_w sheet_h = Ok orientation)
  /\ (optimize_part_orientation part sheet_w sheet_h = Ok None
      <-> ~ (w <= sheet_w /\ h <= sheet_h) /\ ~ (h <= sheet_w /\ w <= sheet_h))
  /\ (forall angle,
        optimize_part_orientation part sheet_w sheet_h = Ok (Some angle) ->
        (angle = 0 /\ w <= sheet_w /\ h <= sheet_h)
        \/ (angle = np_pi / 2 /\ h <= sheet_w /\ w <= sheet_h))
  /\ (w <= sheet_w /\ h <= sheet_h -> ~ (h <= sheet_w /\ w <= sheet_h) ->
      optimize_part_orientation part sheet_w sheet_h = Ok (Some 0))
  /\ (~ (w <= sheet_w /\ h <= sheet_h) -> h <= sheet_w /\ w <= sheet_h ->
      optimize_part_orientation part sheet_w sheet_h = Ok (Some (np_pi / 2)))
  /\ (w <= sheet_w /\ h <= sheet_h -> h <= sheet_w /\ w <= sheet_h ->
      let waste1 := (sheet_w - w) * (sheet_h - h) in
      let waste2 := (sheet_w - h) * (sheet_h - w) in
      optimize_part_orientation part sheet_w sheet_h
      = Ok (Some (if Qle_bool waste1 waste2 then 0 else np_pi / 2)))
  /\ (w == h -> w <= sheet_w /\ h <= sheet_h ->
      optimize_part_orientation part sheet_w sheet_h = Ok (Some 0)).
Proof.
  unfold optimize_part_orientation. rewrite Ht, Hw, Hh. cbn [subscript bind].
  rewrite Hk. cbn [String.eqb Ascii.eqb Bool.eqb]. cbn [bind].
  pose proof (fits_iff w h sheet_w sheet_h) as Hup.
  pose proof (fits_iff h w sheet_w sheet_h) as Hrot.
  destruct (Qle_bool w sheet_w && Qle_bool h sheet_h);
    destruct (Qle_bool h sheet_w && Qle_bool w sheet_h).
  - assert (w <= sheet_w /\ h <= sheet_h) as Hu by now apply Hup.
    assert (h <= sheet_w /\ w <= sheet_h) as Hr by now apply Hrot.
    split; [eexists; reflexivity|].
    split; [split; [discriminate|intros [Hn _]; contradiction]|].
    split.
    { intros angle [= <-].
      destruct (Qle_bool _ _); [left|right]; split; trivial; reflexivity. }
    split; [intros _ Hn; contradiction|].
    split; [intros Hn _; contradiction|].
    split; [reflexivity|].
    intros Hwh _.
    assert ((sheet_w - w) * (sheet_h - h) <= (sheet_w - h) * (sheet_h - w))
      as Hle by (rewrite Hwh; apply Qle_refl).
    apply Qle_bool_iff in Hle. now rewrite Hle.
  - assert (w <= sheet_w /\ h <= sheet_h) as Hu by now apply Hup.
    assert (~ (h <= sheet_w /\ w <= sheet_h)) as Hr
      by (intros Hf; apply Hrot in Hf; discriminate).
    split; [eexists; reflexivity|].
    split; [split; [discriminate|intros [Hn _]; contradiction]|].
    split; [intros angle [= <-]; left; split; trivial; reflexivity|].
    split; [reflexivity|].
    split; [intros Hn _; contradiction|].
    split; [intros _ Hf; contradiction|].
    reflexivity.
  - assert (~ (w <= sheet_w /\ h <= sheet_h)) as Hu
      by (intros Hf; apply Hup in Hf; discriminate).
    assert (h <= sheet_w /\ w <= sheet_h) as Hr by now apply Hrot.
    split; [eexists; reflexivity|].
    split; [split; [discriminate|intros [_ Hn]; contradiction]|].
    split; [intros angle [= <-]; right; split; trivial; reflexivity|].
    split; [intros Hf; contradiction|].
    split; [reflexivity|].
    split; [intros Hf; contradiction|].
    intros _ Hf; contradiction.
  - assert (~ (w <= sheet_w /\ h <= sheet_h)) as Hu
      by (intros Hf; apply Hup in Hf; discriminate).
    assert (~ (h <= sheet_w /\ w <= sheet_h)) as Hr
      by (intros Hf; apply Hrot in Hf; discriminate).
    split; [eexists; reflexivity|].
    split; [split; [intros _; now split|reflexivity]|].
    split; [intros angle [=]|].
    split; [intros Hf; contradiction|].
    split; [intros _ Hf; contradiction|].
    split; [intros Hf; contradiction|].
    intros _ Hf; contradiction.
Qed.

Lemma circle_fits (r sheet_w sheet_h : Q) :
  Qle_bool (2 * r) (Qmin sheet_w sheet_h)
  = Qle_bool (2 * r) sheet_w && Qle_bool (2 * r) sheet_h.
Proof.
  destruct (Qle_bool (2 * r) sheet_w && Qle_bool (2 * r) sheet_h) eqn:E.
  - apply fits_iff in E. apply Qle_bool_iff. now apply Q.min_glb.
  - destruct (Qle_bool (2 * r) (Qmin sheet_w sheet_h)) eqn:Em; [|reflexivity].
    apply Qle_bool_iff in Em. apply Q.min_glb_iff in Em.
    apply fits_iff in Em. congruence.
Qed.

(** X14.  For circles and triangles [optimize_part_orientation] agrees
    with [check_part_fits_sheet], errors included: it returns 0 when the
    check is true and [None] when it is false; none of the five rotated
    orientations tried for a triangle is ever returned. *)
Theorem X14_round_and_triangular_parts_follow_the_fit_check
        (part : part_info) (t : string) (sheet_w sheet_h : Q)
        (Ht : p_type part = Some t)
        (Hk : lower t = "circle"%string \/ lower t = "triangle"%string) :
  optimize_part_orientation part sheet_w sheet_h
  = (fits <- check_part_fits_sheet part sheet_w sheet_h ;;
     Ok (if fits then Some 0 else None)).
Proof.
  unfold optimize_part_orientation, check_part_fits_sheet, get_part_bounds.
  rewrite Ht. cbn [subscript bind].
  destruct Hk as [Hk|Hk]; rewrite Hk; cbn [String.eqb Ascii.eqb Bool.eqb].
  - destruct (p_radius part) as [r|]; cbn [subscript bind]; [|reflexivity].
    rewrite circle_fits.
    now destruct (Qle_bool (2 * r) sheet_w && Qle_bool (2 * r) sheet_h).
  - destruct (p_base part) as [b|]; cbn [subscript bind]; [|reflexivity].
    destruct (p_height part) as [h|]; cbn [subscript bind]; [|reflexivity].
    cbn [filter].
    now destruct (Qle_bool b sheet_w && Qle_bool h sheet_h).
Qed.

(** X15.  An unknown shape kind is not an error for
    [optimize_part_orientation]: it answers orientation 0 for every tag
    whose lower-casing is none of the three kinds, where
    [check_part_fits_sheet] raises the unsupported-kind error. *)
Theorem X15_unknown_kind_gets_orientation_zero
        (part : part_info) (t : string) (sheet_w sheet_h : Q)
        (Ht : p_type part = Some t) (Hk : supported (lower t) = false) :
  optimize_part_orientation part sheet_w sheet_h = Ok (Some 0)
  /\ check_part_fits_sheet part sheet_w sheet_h = Raise (unsupported (lower t)).
Proof.
  apply supported_cases in Hk as (Hr & Hc & Htr).
  unfold optimize_part_orientation, check_part_fits_sheet, get_part_bounds.
  rewrite Ht. cbn [subscript bind]. now rewrite Hr, Hc, Htr.
Qed.

End OrientationFacts.

(* ================================================================== *)
(** * rotate_point *)

Module RealRotationFacts.
Import RealRotation.
Local Open Scope R_scope.

(** X16.  Rotations about one centre compose by adding their angles,
    so rotating by an angle and then by its opposite returns the point,
    and a rotation by 0 leaves every point where it is. *)
Theorem X16_rotations_compose (x y a b cx cy : R) :
  (let (x1, y1) := rotate_point x y a cx cy in
   rotate_point x1 y1 b cx cy = rotate_point x y (a + b) cx cy)
  /\ (let (x1, y1) := rotate_point x y a cx cy in
      rotate_point x1 y1 (- a) cx cy = (x, y))
  /\ rotate_point x y 0 cx cy = (x, y).
Proof.
  unfold rotate_point. split; [|split].
  - rewrite cos_plus, sin_plus. f_equal; ring.
  - rewrite cos_neg, sin_neg.
    pose proof (sin2_cos2 a) as Hunit. unfold Rsqr in Hunit.
    f_equal.
    + replace x with ((x - cx) * (sin a * sin a + cos a * cos a) + cx) at 3
        by (rewrite Hunit; ring).
      ring.
    + replace y with ((y - cy) * (sin a * sin a + cos a * cos a) + cy) at 3
        by (rewrite Hunit; ring).
      ring.
  - rewrite cos_0, sin_0. f_equal; ring.
Qed.

(** X17.  A rotation keeps the distance to its centre and fixes the
    centre itself. *)
Theorem X17_rotation_preserves_distance_to_centre (x y a cx cy : R) :
  dist2 (rotate_point x y a cx cy) cx cy = dist2 (x, y) cx cy
  /\ rotate_point cx cy a cx cy = (cx, cy).
Proof.
  unfold rotate_point, dist2. cbn [fst snd]. split.
  - pose proof (sin2_cos2 a) as Hunit. unfold Rsqr in Hunit.
    replace ((x - cx) * (x - cx) + (y - cy) * (y - cy))
      with (((x - cx) * (x - cx) + (y - cy) * (y - cy))
            * (sin a * sin a + cos a * cos a)) by (rewrite Hunit; ring).
    ring.
  - f_equal; ring.
Qed.

End RealRotationFacts.

(* ================================================================== *)
(** * generate_part_variants *)

Section Variants.
Context `{Numpy}.

Lemma for_each_pure_on {A B : Type} (body : A -> result B) (f : A -> B)
      (l : list A) :
  (forall a, In a l -> body a = Ok (f a)) -> for_each body l = Ok (map f l).
Proof.
  induction l as [|a l IH]; intros Hb; simpl; [reflexivity|].
  rewrite (Hb a (or_introl eq_refl)). cbn [bind].
  rewrite IH; [reflexivity|]. intros b Hin. apply Hb. now right.
Qed.

Lemma range_in (n i : Z) : In i (range n) <-> (0 <= i < n)%Z.
Proof.
  unfold range. rewrite in_map_iff. split.
  - intros (k & <- & Hk). apply in_seq in Hk. lia.
  - intros Hi. exists (Z.to_nat i). split; [lia|]. apply in_seq. lia.
Qed.

(** X18.  [generate_part_variants] never fails, not even for 0 or a
    negative number of rotations (it then returns no variant); it returns
    max(0, num_rotations) variants of the unchanged part, the k-th turned
    by 2 pi k / num_rotations, every angle in [0, 2 pi). *)
Theorem X18_variants_cover_one_turn (part : part_info) (num_rotations : Z)
        (Hpi : 0 < np_pi) :
  generate_part_variants part num_rotations
  = Ok (map (fun i => mkVariant part
                        (2 * np_pi * inject_Z i / inject_Z num_rotations))
            (range num_rotations))
  /\ List.length (range num_rotations) = Z.to_nat num_rotations
  /\ Forall (fun i => 0 <= 2 * np_pi * inject_Z i / inject_Z num_rotations
                      /\ 2 * np_pi * inject_Z i / inject_Z num_rotations
                         < 2 * np_pi)
            (range num_rotations).
Proof.
  split; [|split].
  - unfold generate_part_variants. apply for_each_pure_on.
    intros i Hi. apply range_in in Hi.
    rewrite py_div_ok; [reflexivity|].
    unfold Qeq. simpl. lia.
  - unfold range. now rewrite length_map, length_seq.
  - apply Forall_forall. intros i Hi. apply range_in in Hi.
    assert (0 < inject_Z num_rotations) as Hn by (unfold Qlt; simpl; lia).
    assert (0 <= inject_Z i) as Hi0 by (unfold Qle; simpl; lia).
    assert (inject_Z i < inject_Z num_rotations) as Hin
        by (unfold Qlt; simpl; lia).
    split.
    + apply Qle_shift_div_l; [exact Hn|]. nra.
    + apply Qlt_shift_div_r; [exact Hn|]. nra.
Qed.

End Variants.

(* ================================================================== *)
(** * Mutation *)

Section MutationFacts.
Context `{Numpy} `{RandomUnit}.
Variable self : NestingOptimizer.

Lemma setitem_at (prefix : list Q) (old v : Q) (rest : list Q) :
  setitem (prefix ++ old :: rest) (List.length prefix) v
  = InRange (prefix ++ v :: rest).
Proof.
  unfold setitem.
  assert ((List.length prefix <? List.length (prefix ++ old :: rest))%nat = true)
    as -> by (apply Nat.ltb_lt; rewrite length_app; simpl; lia).
  f_equal.
  rewrite firstn_app, Nat.sub_diag, firstn_all. cbn [firstn].
  rewrite app_nil_r. f_equal.
  rewrite skipn_app, skipn_all2 by lia.
  replace (S (List.length prefix) - List.length prefix)%nat with 1%nat by lia.
  reflexivity.
Qed.

Lemma setitem_at_offset (prefix mid : list Q) (old v : Q) (rest : list Q) :
  setitem (prefix ++ mid ++ old :: rest)
          (List.length prefix + List.length mid) v
  = InRange (prefix ++ mid ++ v :: rest).
Proof.
  rewrite !app_assoc, <- length_app. apply setitem_at.
Qed.

Lemma setitem_second (prefix : list Q) (a old v : Q) (rest : list Q) :
  setitem (prefix ++ a :: old :: rest) (List.length prefix + 1) v
  = InRange (prefix ++ a :: v :: rest).
Proof. exact (setitem_at_offset prefix [a] old v rest). Qed.

Lemma setitem_third (prefix : list Q) (a b old v : Q) (rest : list Q) :
  setitem (prefix ++ a :: b :: old :: rest) (List.length prefix + 2) v
  = InRange (prefix ++ a :: b :: v :: rest).
Proof. exact (setitem_at_offset prefix [a; b] old v rest). Qed.

Lemma mutate_at_triple (prefix : list Q) (x y r : Q) (rest : list Q) (g : rng) :
  exists x' y' r' g',
    mutate_at self (List.length prefix) (prefix ++ x :: y :: r :: rest, g)
    = InRange (prefix ++ x' :: y' :: r' :: rest, g')
    /\ ((x' = x /\ y' = y /\ r' = r) \/ (r' = r) \/ (x' = x /\ y' = y))
    /\ (r' = r \/ (x' = x /\ y' = y)).
Proof.
  unfold mutate_at.
  destruct (random_random g) as [r1 g1].
  destruct (Qgt_bool (mutation_rate self) r1).
  - destruct (random_random g1) as [r2 g2].
    destruct (Qgt_bool (1 # 2) r2).
    + destruct (random_uniform 0 (sheet_width self) g2) as [x' g3].
      rewrite setitem_at. cbn [index_bind].
      destruct (random_uniform 0 (sheet_height self) g3) as [y' g4].
      rewrite setitem_second. cbn [index_bind].
      exists x', y', r, g4. split; [reflexivity|]. split; [right|]; now left.
    + destruct (random_uniform 0 (2 * np_pi) g2) as [r' g3].
      rewrite setitem_third. cbn [index_bind].
      exists x, y, r', g3. split; [reflexivity|]. split; [right|]; now right.
  - exists x, y, r, g1. split; [reflexivity|]. split; [left|right]; auto.
Qed.

Lemma mutate_loop_triples (n : nat) (prefix body : list Q) (g : rng) :
  List.length body = (3 * n)%nat ->
  exists body' g',
    mutate_loop self
      (map (fun k => (List.length prefix + 3 * k)%nat) (seq 0 n))
      (prefix ++ body, g)
    = InRange (prefix ++ body', g')
    /\ mutated body body'.
Proof.
  revert prefix body g. induction n as [|n IH]; intros prefix body g Hlen.
  - destruct body; [|discriminate]. exists [], g. split; [reflexivity|constructor].
  - destruct body as [|x [|y [|r rest]]]; simpl in Hlen; try lia.
    cbn [seq map mutate_loop]. rewrite Nat.mul_0_r, Nat.add_0_r.
    destruct (mutate_at_triple prefix x y r rest g)
      as (x' & y' & r' & g1 & -> & Hcase & _).
    cbn [index_bind].
    destruct (IH (prefix ++ [x'; y'; r']) rest g1) as (rest' & g' & Hloop & Hm);
      [lia|].
    exists (x' :: y' :: r' :: rest'), g'. split.
    + rewrite <- seq_shift, map_map.
      rewrite <- !app_assoc in Hloop. cbn [app] in Hloop.
      rewrite <- Hloop.
      f_equal. apply map_ext. intros k. rewrite length_app. simpl. lia.
    + destruct Hcase as [(-> & -> & ->)|[->|(-> & ->)]]; now constructor.
Qed.

Lemma range_step3_multiple (n : nat) :
  range_step3 (3 * n) = map (fun k => (0 + 3 * k)%nat) (seq 0 n).
Proof.
  unfold range_step3.
  replace ((3 * n + 2) / 3)%nat with n; [reflexivity|].
  rewrite (Nat.mul_comm 3 n), Nat.div_add_l by lia.
  change (2 / 3)%nat with 0%nat. lia.
Qed.

Lemma mutated_length (l l' : list Q) :
  mutated l l' -> List.length l' = List.length l.
Proof. induction 1; simpl; congruence. Qed.

Lemma mutated_triple (l l' : list Q) (k : nat) :
  mutated l l' -> (3 * k + 2 < List.length l)%nat ->
  nth (3 * k + 2) l' 0 = nth (3 * k + 2) l 0
  \/ (nth (3 * k) l' 0 = nth (3 * k) l 0
      /\ nth (3 * k + 1) l' 0 = nth (3 * k + 1) l 0).
Proof.
  intros Hm. revert k.
  induction Hm as [|x y r l l' Hm IH|x y r x' y' l l' Hm IH|x y r r' l l' Hm IH];
    intros k Hk; simpl in Hk; try lia;
    (destruct k as [|k];
     [ cbn; auto
     | replace (3 * S k + 2)%nat with (S (S (S (3 * k + 2)))) by lia;
       replace (3 * S k + 1)%nat with (S (S (S (3 * k + 1)))) by lia;
       replace (3 * S k)%nat with (S (S (S (3 * k)))) by lia;
       cbn [nth]; apply IH; lia ]).
Qed.

(** X19.  On an individual of 3N genes [mutate] never raises
    [IndexError]; it keeps the number of genes, invalidates the cached
    fitness, and changes each triple in at most one way: the rotation of
    a part is kept, or its x and y are both kept.  Position and rotation
    of one part are never redrawn in the same call. *)
Theorem X19_mutate_redraws_position_or_rotation (ind : individual) (g : rng)
        (N : nat) (Hlen : List.length (genes ind) = (3 * N)%nat) :
  exists genes' g',
    mutate self ind g = InRange (mkIndividual genes' None, g')
    /\ mutated (genes ind) genes'
    /\ List.length genes' = (3 * N)%nat
    /\ forall k, (k < N)%nat ->
         nth (3 * k + 2) genes' 0 = nth (3 * k + 2) (genes ind) 0
         \/ (nth (3 * k) genes' 0 = nth (3 * k) (genes ind) 0
             /\ nth (3 * k + 1) genes' 0 = nth (3 * k + 1) (genes ind) 0).
Proof.
  destruct (mutate_loop_triples N [] (genes ind) g Hlen)
    as (genes' & g' & Hloop & Hm).
  exists genes', g'. unfold mutate. rewrite Hlen, range_step3_multiple.
  cbn [List.length app] in Hloop. rewrite Hloop. cbn [index_bind fst snd].
  split; [reflexivity|]. split; [exact Hm|].
  split; [rewrite (mutated_length _ _ Hm); exact Hlen|].
  intros k Hk. apply mutated_triple; [exact Hm|lia].
Qed.

Lemma mutate_loop_idle (indices : list nat) (ind : list Q) (g : rng) :
  (forall g0, Qgt_bool (mutation_rate self) (fst (random_random g0)) = false) ->
  exists g', mutate_loop self indices (ind, g) = InRange (ind, g').
Proof.
  intros Hidle. revert g. induction indices as [|i indices IH]; intros g.
  - now exists g.
  - cbn [mutate_loop]. unfold mutate_at.
    specialize (Hidle g). destruct (random_random g) as [r1 g1].
    cbn [fst] in Hidle. rewrite Hidle. cbn [index_bind]. apply IH.
Qed.

(** X20.  With a mutation rate of 0 (or below) and a generator whose
    [random()] is never negative, [mutate] leaves the genes exactly as
    they are, whatever their number, and still invalidates the cached
    fitness. *)
Theorem X20_zero_rate_mutation_keeps_genes (ind : individual) (g : rng)
        (Hrate : mutation_rate self <= 0)
        (Hunit : forall g0, 0 <= fst (random_random g0)) :
  exists g', mutate self ind g = InRange (mkIndividual (genes ind) None, g').
Proof.
  destruct (mutate_loop_idle (range_step3 (List.length (genes ind)))
                             (genes ind) g) as [g' Hloop].
  { intros g0. apply Qgt_bool_false_iff. specialize (Hunit g0). lra. }
  exists g'. unfold mutate. now rewrite Hloop.
Qed.

End MutationFacts.

(* ================================================================== *)
(** * Fresh individuals and the random baseline *)

Section BaselineFacts.
Context `{Shapely} `{Numpy} `{Random}.

Lemma random_entries_genes (self : NestingOptimizer) (ps : list part_info) (g : rng) :
  layout_parts (fst (random_entries self ps g)) = ps
  /\ layout_genes (fst (random_entries self ps g)) = fst (create_genes self ps g)
  /\ snd (random_entries self ps g) = snd (create_genes self ps g).
Proof.
  revert g. induction ps as [|part ps IH]; intros g; cbn [random_entries create_genes].
  - repeat split.
  - destruct (random_uniform 0 (sheet_width self) g) as [x g1].
    destruct (random_uniform 0 (sheet_height self) g1) as [y g2].
    destruct (random_uniform 0 (2 * np_pi) g2) as [r g3].
    destruct (IH g3) as (Hp & Hg & Hs).
    destruct (random_entries self ps g3) as [rest g4].
    destruct (create_genes self ps g3) as [gs g5].
    cbn [fst snd] in *. subst. repeat split.
Qed.

(** X21.  The random baseline is the decoding of a freshly created
    individual: when [create_random_layout] returns, its layout pairs the
    expanded parts, in order, with exactly the genes [create_individual]
    draws from the same generator state, which is left in the same state;
    the statistics are those of that layout, with [total_parts] the
    number of layout entries and at most that many parts placed. *)
Theorem X21_baseline_decodes_a_fresh_individual
        (self self' : NestingOptimizer) (parts_data : list part_info) (g g' : rng)
        (layout : list layout_item) (stats : layout_stats)
        (Hrun : create_random_layout self parts_data g
                = Ok (layout, stats, self', g')) :
  expand_parts_list parts_data = Ok (parts self')
  /\ sheet_width self' = sheet_width self
  /\ sheet_height self' = sheet_height self
  /\ layout_parts layout = parts self'
  /\ layout_genes layout = genes (fst (create_individual self' g))
  /\ g' = snd (create_individual self' g)
  /\ decode_individual self' (genes (fst (create_individual self' g))) = Ok layout
  /\ calculate_layout_stats self' layout = Ok stats
  /\ st_total_parts stats = len layout
  /\ (0 <= st_parts_placed stats <= st_total_parts stats)%Z.
Proof.
  unfold create_random_layout in Hrun.
  destruct (expand_parts_list parts_data) as [expanded|e]; [|discriminate].
  cbn [bind] in Hrun.
  pose proof (random_entries_genes (set_parts self expanded)
                (parts (set_parts self expanded)) g) as (Hp & Hg & Hs).
  destruct (random_entries (set_parts self expanded)
              (parts (set_parts self expanded)) g) as [layout0 g0].
  destruct (calculate_layout_stats (set_parts self expanded) layout0)
    as [stats0|e] eqn:Est; [|discriminate].
  cbn [bind] in Hrun. injection Hrun as <- <- <- <-.
  cbn [fst snd] in *.
  assert (genes (fst (create_individual (set_parts self expanded) g))
          = layout_genes layout0
          /\ snd (create_individual (set_parts self expanded) g) = g0)
    as [Hgenes Hstate].
  { unfold create_individual.
    destruct (create_genes (set_parts self expanded)
                (parts (set_parts self expanded)) g) as [gs g5].
    cbn [fst snd genes] in *. now subst. }
  split; [reflexivity|]. split; [reflexivity|]. split; [reflexivity|].
  split; [exact Hp|]. split; [now rewrite Hgenes|]. split; [now rewrite Hstate|].
  split.
  { rewrite Hgenes. unfold decode_individual. rewrite <- Hp.
    apply decode_from_encode. reflexivity. }
  split; [exact Est|].
  unfold calculate_layout_stats in Est. rewrite stats_loop_of in Est.
  unfold stats_of in Est.
  destruct (py_div _ _) as [q|e] in Est; [|discriminate].
  cbn [bind] in Est. injection Est as <-. cbn.
  pose proof (evaluate_loop_count (set_parts self expanded) layout0) as Hc.
  assert (List.length layout0 = List.length expanded) as Hl.
  { rewrite <- layout_parts_length, Hp. reflexivity. }
  unfold len. split; [now rewrite Hl|]. lia.
Qed.

(** X22.  On a catalog of the data model (every entry a dict whose
    [quantity], when present, is an integer and whose [id], when present,
    is a string, as [part_info] has them) and a sheet with numeric sides,
    the random baseline fails only in two ways: [KeyError] on [id] from
    the expansion of the catalog, or [ZeroDivisionError] from the
    statistics; on a sheet of area 0 it fails even for an empty catalog,
    never returning a layout; and on a sheet of non-zero area it returns
    whenever the catalog expands. *)
Theorem X22_baseline_failures (self : NestingOptimizer)
        (parts_data : list part_info) (g : rng) :
  (forall e, create_random_layout self parts_data g = Raise e ->
             e = KeyError "id" \/ e = ZeroDivisionError)
  /\ (sheet_width self * sheet_height self == 0 ->
      exists e, create_random_layout self parts_data g = Raise e)
  /\ (~ sheet_width self * sheet_height self == 0 ->
      forall expanded, expand_parts_list parts_data = Ok expanded ->
      exists out, create_random_layout self parts_data g = Ok out).
Proof.
  unfold create_random_layout. split; [|split].
  - intros e E.
    destruct (expand_parts_list parts_data) as [expanded|e0] eqn:Ex.
    + cbn [bind] in E.
      destruct (random_entries _ _ g) as [layout0 g0].
      unfold calculate_layout_stats in E.
      destruct (stats_loop _ layout0) as [[placed total] n].
      unfold py_div in E. destruct (Qeq_bool _ 0); cbn [bind] in E.
      * injection E as <-. now right.
      * discriminate.
    + cbn [bind] in E. injection E as <-. left.
      now apply (expand_parts_list_error parts_data).
  - intros Hz.
    destruct (expand_parts_list parts_data) as [expanded|e0]; cbn [bind].
    + destruct (random_entries _ _ g) as [layout0 g0].
      unfold calculate_layout_stats.
      destruct (stats_loop _ layout0) as [[placed total] n].
      cbn [sheet_width sheet_height set_parts].
      rewrite (py_div_zero _ _ Hz). cbn [bind]. eexists. reflexivity.
    + now exists e0.
  - intros Hnz expanded ->. cbn [bind].
    destruct (random_entries _ _ g) as [layout0 g0].
    unfold calculate_layout_stats.
    destruct (stats_loop _ layout0) as [[placed total] n].
    cbn [sheet_width sheet_height set_parts].
    rewrite (py_div_ok _ _ Hnz). cbn [bind]. eexists. reflexivity.
Qed.

End BaselineFacts.

Section FreshIndividuals.
Context `{Numpy} `{Random}.
Variable self : NestingOptimizer.

Lemma random_entries_on_sheet (ps : list part_info) (g : rng) :
  (forall a b g0, a <= b ->
     a <= fst (random_uniform a b g0) /\ fst (random_uniform a b g0) <= b) ->
  0 <= sheet_width self -> 0 <= sheet_height self -> 0 <= np_pi ->
  Forall (entry_on_sheet self) (fst (random_entries self ps g)).
Proof.
  intros Huni HW HH Hpi. revert g.
  induction ps as [|part ps IH]; intros g; cbn [random_entries].
  - constructor.
  - pose proof (Huni 0 (sheet_width self) g HW) as Hx.
    destruct (random_uniform 0 (sheet_width self) g) as [x g1].
    pose proof (Huni 0 (sheet_height self) g1 HH) as Hy.
    destruct (random_uniform 0 (sheet_height self) g1) as [y g2].
    assert (0 <= 2 * np_pi) as H2pi by lra.
    pose proof (Huni 0 (2 * np_pi) g2 H2pi) as Hr.
    destruct (random_uniform 0 (2 * np_pi) g2) as [r g3].
    specialize (IH g3).
    destruct (random_entries self ps g3) as [rest g4].
    cbn [fst] in *. constructor; [|exact IH].
    unfold entry_on_sheet. tauto.
Qed.

(** X23.  With a generator whose [uniform(a, b)] lies in [a, b], a
    fresh individual on a sheet of non-negative width and height decodes
    to a layout that puts every part's position on the sheet, with a
    rotation between 0 and 2 pi; its cached fitness is invalid. *)
Theorem X23_fresh_individual_lies_on_the_sheet (g : rng)
        (Huni : forall a b g0, a <= b ->
                  a <= fst (random_uniform a b g0)
                  /\ fst (random_uniform a b g0) <= b)
        (HW : 0 <= sheet_width self) (HH : 0 <= sheet_height self)
        (Hpi : 0 <= np_pi) :
  exists layout,
    decode_individual self (genes (fst (create_individual self g))) = Ok layout
    /\ layout_parts layout = parts self
    /\ Forall (entry_on_sheet self) layout
    /\ fitness_values (fst (create_individual self g)) = None.
Proof.
  pose proof (random_entries_genes self (parts self) g) as (Hp & Hg & _).
  pose proof (random_entries_on_sheet (parts self) g Huni HW HH Hpi) as Hon.
  exists (fst (random_entries self (parts self) g)).
  unfold create_individual.
  destruct (create_genes self (parts self) g) as [gs g'].
  cbn [fst genes fitness_values] in *.
  split; [|split; [exact Hp|split; [exact Hon|reflexivity]]].
  rewrite <- Hg. unfold decode_individual. rewrite <- Hp at 1.
  apply decode_from_encode. reflexivity.
Qed.

End FreshIndividuals.

(* ================================================================== *)
(** * Closed-form areas against the shapes built (polygon instance) *)

Module PolyAreaFacts.
Import PolyGeom.

Lemma half_abs_double (a e : Q) : e == 2 * a -> Qabs e / 2 == Qabs a.
Proof.
  intros ->. rewrite Qabs_Qmult.
  change (Qabs 2) with 2. field.
Qed.

(** X24.  For a rectangle and for a triangle the closed form of
    [calculate_part_area] is, up to its sign, the area of the shape that
    [create_part_from_dict] builds (shoelace area of the box, resp. of
    the three vertices): the two functions agree for these kinds whenever
    the dimensions are not negative. *)
Theorem X24_closed_form_matches_rectangle_and_triangle
        (part : part_info) (t : string)
        (Ht : p_type part = Some t)
        (Hk : lower t = "rectangle"%string \/ lower t = "triangle"%string)
        (closed_form : Q)
        (Harea : calculate_part_area part = Ok closed_form) :
  exists shape,
    create_part_from_dict part = Ok shape
    /\ area shape == Qabs closed_form
    /\ (0 <= closed_form -> area shape == closed_form).
Proof.
  assert (exists shape, create_part_from_dict part = Ok shape
                        /\ area shape == Qabs closed_form) as (shape & Hs & Ha).
  { unfold calculate_part_area in Harea. unfold create_part_from_dict.
    rewrite Ht in *. cbn [subscript bind] in *.
    destruct Hk as [Hk|Hk]; rewrite Hk in *;
      cbn [String.eqb Ascii.eqb Bool.eqb] in *.
    - destruct (p_width part) as [w|]; [|discriminate].
      destruct (p_height part) as [h|]; [|discriminate].
      cbn [subscript bind] in *. injection Harea as <-.
      eexists. split; [reflexivity|].
      cbn [area shapely]. unfold poly_area, poly_box.
      apply half_abs_double.
      cbn [shoelace ring_sum]. unfold cross. cbn [fst snd]. field.
    - destruct (p_base part) as [b|]; [|discriminate].
      destruct (p_height part) as [h|]; [|discriminate].
      cbn [subscript bind] in *. injection Harea as <-.
      eexists. split; [reflexivity|].
      cbn [area shapely]. unfold poly_area.
      apply half_abs_double.
      cbn [shoelace ring_sum]. unfold cross. cbn [fst snd]. field. }
  exists shape. split; [exact Hs|]. split; [exact Ha|].
  intros Hpos. rewrite Ha. now apply Qabs_pos.
Qed.

End PolyAreaFacts.

(* ================================================================== *)
(** * Concrete runs of the further properties *)

Module MoreRuns.
Import PolyGeom Inputs MoreInputs.

Lemma X1_decode_of_encoded_layout_witness :
  decode_individual three_parts (layout_genes strips_layout) = Ok strips_layout.
Proof. exact (X1_decode_of_encoded_layout three_parts strips_layout eq_refl). Defined.

Lemma X2_decode_reads_first_3N_genes_witness :
  exists layout,
    decode_individual three_parts (square_only ++ [7; 8]) = Ok layout
    /\ layout_parts layout = parts three_parts
    /\ List.length layout = 3%nat
    /\ layout_genes layout = square_only
    /\ (List.length (square_only ++ [7; 8]) = 9%nat ->
        layout_genes layout = square_only ++ [7; 8]).
Proof.
  apply (X2_decode_reads_first_3N_genes three_parts (square_only ++ [7; 8])).
  simpl. lia.
Defined.

Lemma X3_short_genotype_raises_witness :
  decode_individual three_parts [5; 5; 0; 1]
  = Raise (ValueError "not enough values to unpack (expected 3)"%string)
  /\ evaluate_layout three_parts [5; 5; 0; 1]
     = Raise (ValueError "not enough values to unpack (expected 3)"%string).
Proof.
  apply (X3_short_genotype_raises three_parts [5; 5; 0; 1]). simpl. lia.
Defined.

Lemma X4_acceptance_is_never_revoked_witness :
  exists more,
    fst (evaluate_loop three_parts (square_layout ++ strips_layout))
    = fst (evaluate_loop three_parts square_layout) ++ more
    /\ (List.length more <= List.length strips_layout)%nat
    /\ snd (evaluate_loop three_parts square_layout)
       <= snd (evaluate_loop three_parts (square_layout ++ strips_layout)).
Proof.
  exact (X4_acceptance_is_never_revoked three_parts square_layout strips_layout
           PolyGeomFacts.poly_area_nonneg).
Defined.

Lemma X5_score_between_half_and_full_utilization_witness :
  exists layout utilization score,
    decode_individual three_parts square_only = Ok layout
    /\ evaluate_utilization three_parts (snd (evaluate_loop three_parts layout))
       = Ok utilization
    /\ evaluate_layout three_parts square_only = Ok score
    /\ 0 <= utilization / 2 /\ utilization / 2 <= score /\ score <= utilization.
Proof.
  exact (X5_score_between_half_and_full_utilization three_parts square_only
           PolyGeomFacts.poly_area_nonneg eq_refl).
Defined.

(** Parents of 6 and 9 genes: the only cut is 3. *)
Lemma X7_crossover_conserves_genes_witness :
  Permutation ([1; 2; 3; 14; 15; 16; 17; 18; 19] ++ [11; 12; 13; 4; 5; 6])
              (genes short_parent ++ genes parent2)
  /\ (9 + 6 = 6 + 9)%nat.
Proof.
  destruct (X7_crossover_conserves_genes short_parent parent2
              [(mkIndividual [1; 2; 3; 14; 15; 16; 17; 18; 19] None,
                mkIndividual [11; 12; 13; 4; 5; 6] None)]
              (mkIndividual [1; 2; 3; 14; 15; 16; 17; 18; 19] None)
              (mkIndividual [11; 12; 13; 4; 5; 6] None)
              eq_refl (or_introl eq_refl)) as (Hperm & Hlen & _).
  split; [exact Hperm|exact Hlen].
Defined.

Lemma X9_swap_tails_is_an_involution_witness :
  let (c1, c2) := swap_tails 3 parent1 parent2 in
  let (d1, d2) := swap_tails 3 c1 c2 in
  genes d1 = genes parent1 /\ genes d2 = genes parent2.
Proof.
  apply (X9_swap_tails_is_an_involution 3 parent1 parent2); simpl; lia.
Defined.

Lemma X10_expansion_keeps_every_other_field_witness :
  Forall (fun copy =>
            exists part new_id,
              In part catalog /\ (1 <= quantity_of part)%Z
              /\ copy = set_id part new_id
              /\ p_type copy = p_type part
              /\ p_quantity copy = p_quantity part
              /\ p_width copy = p_width part /\ p_height copy = p_height part
              /\ p_radius copy = p_radius part /\ p_base copy = p_base part)
         (spec_expand catalog)
  /\ List.length (spec_expand catalog) = 4%nat.
Proof.
  exact (X10_expansion_keeps_every_other_field catalog (spec_expand catalog)
           eq_refl).
Defined.

Lemma X12_copies_of_an_entry_have_distinct_ids_witness :
  NoDup [Some "c1_1"%string; Some "c1_2"%string; Some "c1_3"%string]
  /\ 3%nat = 3%nat.
Proof.
  exact (X12_copies_of_an_entry_have_distinct_ids (circle "c1"%string 3 5)
           (spec_expand_part (circle "c1"%string 3 5)) eq_refl).
Defined.

(** A 4 x 2 rectangle on a 10 x 5 sheet fits both ways; waste1 = 6 * 3
    = 18 exceeds waste2 = 8 * 1 = 8, and the rectangle is turned. *)
Lemma X13_rectangle_orientation_witness :
  optimize_part_orientation (rect "r1"%string 4 2) 10 5
  = Ok (Some (if Qle_bool ((10 - 4) * (5 - 2)) ((10 - 2) * (5 - 4))
              then 0 else np_pi / 2))
  /\ Qle_bool ((10 - 4) * (5 - 2)) ((10 - 2) * (5 - 4)) = false.
Proof.
  destruct (X13_rectangle_orientation (rect "r1"%string 4 2) "rectangle"%string 4 2 10 5
              eq_refl eq_refl eq_refl eq_refl) as (_ & _ & _ & _ & _ & Hboth & _).
  split; [|reflexivity].
  apply Hboth; split; lra.
Defined.

Lemma X14_round_and_triangular_parts_follow_the_fit_check_witness :
  optimize_part_orientation (triangle "t1"%string 6 4) 5 10
  = (fits <- check_part_fits_sheet (triangle "t1"%string 6 4) 5 10 ;;
     Ok (if fits then Some 0 else None)).
Proof.
  exact (X14_round_and_triangular_parts_follow_the_fit_check
           (triangle "t1"%string 6 4) "Triangle"%string 5 10 eq_refl (or_intror eq_refl)).
Defined.

Lemma X15_unknown_kind_gets_orientation_zero_witness :
  optimize_part_orientation hexagon 10 10 = Ok (Some 0)
  /\ check_part_fits_sheet hexagon 10 10 = Raise (unsupported "hexagon"%string).
Proof.
  exact (X15_unknown_kind_gets_orientation_zero hexagon "Hexagon"%string 10 10
           eq_refl eq_refl).
Defined.

Lemma X18_variants_cover_one_turn_witness :
  generate_part_variants (rect "r1"%string 4 2) 4
  = Ok (map (fun i => mkVariant (rect "r1"%string 4 2)
                        (2 * np_pi * inject_Z i / inject_Z 4))
            (range 4))
  /\ List.length (range 4) = 4%nat
  /\ Forall (fun i => 0 <= 2 * np_pi * inject_Z i / inject_Z 4
                      /\ 2 * np_pi * inject_Z i / inject_Z 4 < 2 * np_pi)
            (range 4).
Proof.
  apply (X18_variants_cover_one_turn (rect "r1"%string 4 2) 4). reflexivity.
Defined.

(** Six genes and the tape of draws: the first part jumps to (5, 5/2),
    the second is turned. *)
Lemma X19_mutate_redraws_position_or_rotation_witness :
  exists genes' g',
    @mutate numpy Tape.random Tape.random_unit three_parts short_parent tape
    = InRange (mkIndividual genes' None, g')
    /\ mutated (genes short_parent) genes'
    /\ List.length genes' = 6%nat
    /\ forall k, (k < 2)%nat ->
         nth (3 * k + 2) genes' 0 = nth (3 * k + 2) (genes short_parent) 0
         \/ (nth (3 * k) genes' 0 = nth (3 * k) (genes short_parent) 0
             /\ nth (3 * k + 1) genes' 0 = nth (3 * k + 1) (genes short_parent) 0).
Proof.
  exact (@X19_mutate_redraws_position_or_rotation numpy Tape.random
           Tape.random_unit three_parts short_parent tape 2 eq_refl).
Defined.

Example mutate_on_the_tape :
  @mutate numpy Tape.random Tape.random_unit three_parts short_parent tape
  = InRange (mkIndividual [0 + (10 - 0) * (1 # 2); 0 + (10 - 0) * (1 # 4); 3;
                           4; 5; 0 + (2 * np_pi - 0) * (1 # 2)] None, []).
Proof. reflexivity. Qed.

Lemma X20_zero_rate_mutation_keeps_genes_witness :
  exists g',
    @mutate numpy random Steady.random_unit resting short_parent tt
    = InRange (mkIndividual (genes short_parent) None, g').
Proof.
  apply (@X20_zero_rate_mutation_keeps_genes numpy random Steady.random_unit
           resting short_parent tt).
  - cbn. lra.
  - intros g0. cbn. lra.
Defined.

(** Two rectangles drawn at the origin of a 10 x 10 sheet: both stick out
    of the sheet and none is placed. *)
Lemma X21_baseline_decodes_a_fresh_individual_witness :
  @create_random_layout shapely numpy random (optimizer 10 10 []) two_rects tt
  = Ok ([(rect "a"%string 2 2, 0, 0, 0);
         (rect "b"%string 1 2, 0, 0, 0)],
        mkStats (0 / (10 * 10) * 100) 0 2 0 (10 * 10) (10 * 10 - 0),
        optimizer 10 10 two_rects, tt)
  /\ decode_individual (optimizer 10 10 two_rects)
       (genes (fst (@create_individual numpy random
                      (optimizer 10 10 two_rects) tt)))
     = Ok [(rect "a"%string 2 2, 0, 0, 0);
           (rect "b"%string 1 2, 0, 0, 0)]
  /\ (0 <= 0 <= 2)%Z.
Proof.
  assert (@create_random_layout shapely numpy random (optimizer 10 10 [])
            two_rects tt
          = Ok ([(rect "a"%string 2 2, 0, 0, 0);
                 (rect "b"%string 1 2, 0, 0, 0)],
                mkStats (0 / (10 * 10) * 100) 0 2 0 (10 * 10) (10 * 10 - 0),
                optimizer 10 10 two_rects, tt)) as Hrun by reflexivity.
  destruct (@X21_baseline_decodes_a_fresh_individual shapely numpy random
              _ _ _ _ _ _ _ Hrun)
    as (_ & _ & _ & _ & _ & _ & Hd & _ & _ & Hb).
  split; [exact Hrun|]. split; [exact Hd|exact Hb].
Defined.

Lemma X23_fresh_individual_lies_on_the_sheet_witness :
  exists layout,
    decode_individual three_parts (genes (fst (create_individual three_parts tt)))
    = Ok layout
    /\ layout_parts layout = parts three_parts
    /\ Forall (entry_on_sheet three_parts) layout
    /\ fitness_values (fst (create_individual three_parts tt)) = None.
Proof.
  apply (@X23_fresh_individual_lies_on_the_sheet numpy random three_parts tt).
  - intros a b g0 Hab. cbn. split; [lra|exact Hab].
  - cbn. lra.
  - cbn. lra.
  - cbn. lra.
Defined.

Lemma X24_closed_form_matches_rectangle_and_triangle_witness :
  exists shape,
    create_part_from_dict (triangle "t1"%string 6 4) = Ok shape
    /\ area shape == Qabs ((1 # 2) * 6 * 4)
    /\ (0 <= (1 # 2) * 6 * 4 -> area shape == (1 # 2) * 6 * 4).
Proof.
  exact (PolyAreaFacts.X24_closed_form_matches_rectangle_and_triangle
           (triangle "t1"%string 6 4) "Triangle"%string eq_refl (or_intror eq_refl)
           ((1 # 2) * 6 * 4) eq_refl).
Defined.

End MoreRuns.
